(** * proto-to-glue: the schema converter of [src/generate-glue-schema.ts]

    A shallow embedding of [ProtoToGlueConverter] and the properties of its
    conversion engine: field conversion, circular-reference detection,
    memoised message conversion and the top-level entry point.

    The converter works on a protobuf.js reflection graph.  Message types are
    referred to by their fully-qualified name, which is unique inside one
    [Root], so the identity test [s.resolvedType === referenceMessageType]
    is a comparison of names.  JavaScript exceptions, the mutable cache
    [_processedMessages] and the reflection objects touched by [resolve()]
    are threaded through an explicit state-and-exception monad.

    The recursion of the converter follows the references of the graph and
    is not structural, so the recursive functions take fuel.  [OutOfFuel]
    marks a run that was cut short; a call that is out of fuel for every
    amount of fuel is a call that never returns. *)

From stdpp Require Import gmap strings list relations.

Open Scope string_scope.

(** ** Glue catalog types ([Type], [Column] and [Schema] of aws-glue-alpha) *)

(** The declared type of a column's [type] is [Type], but the value comes
    out of a property read of the type mapping, a plain object, and a read
    can also give what the object inherits: [Inherited key] is the value of
    [Object.prototype[key]], a built-in function (the prototype itself for
    [__proto__]), which is no Glue type and has no [inputString]. *)
Inductive GlueType : Type :=
| Primitive (inputString : string)
| ArrayOf (itemType : GlueType)
| StructOf (columns : list Column)
| Inherited (key : string)
with Column : Type :=
| mkColumn (name : string) (type : GlueType).

Definition name (c : Column) : string := let 'mkColumn n _ := c in n.
Definition type (c : Column) : GlueType := let 'mkColumn _ t := c in t.

(** A property read that finds nothing yields [undefined]. *)
#[global] Instance GlueType_inhabited : Inhabited GlueType :=
  populate (Primitive "undefined").

Module glueSchema.
Definition BOOLEAN := Primitive "boolean".
Definition BIG_INT := Primitive "bigint".
Definition DOUBLE := Primitive "double".
Definition FLOAT := Primitive "float".
Definition INTEGER := Primitive "int".
Definition STRING := Primitive "string".
Definition array (itemType : GlueType) : GlueType := ArrayOf itemType.
Definition struct (columns : list Column) : GlueType := StructOf columns.
End glueSchema.

(** ** The protobuf.js reflection graph *)

(** What [field.resolvedType] points to when it is not [null]. *)
Inductive ResolvedType : Type :=
| IsType (fullName : string)
| IsEnum (fullName : string).

#[global] Instance ResolvedType_eq_dec : EqDecision ResolvedType.
Proof. solve_decision. Defined.

Module Field.
Record t : Type := mk {
  name : string;
  type : string;                       (* the declared type, as written *)
  resolvedType : option ResolvedType;  (* [null] for a scalar type *)
  repeated : bool;
  resolved : bool
}.
End Field.
Abbreviation Field := Field.t.

(** A top-level declaration of a [Root], as [root.nestedArray] lists them. *)
Inductive Nested : Type :=
| NestedType (fullName : string)
| NestedEnum (fullName : string)
| NestedNamespace (fullName : string).

(** [types] holds every message type of the graph under its fully-qualified
    name, its fields in declaration order ([Object.values(type.fields)]). *)
Record Root : Type := mkRoot {
  nestedArray : list Nested;
  types : gmap string (list Field)
}.

Definition fields (root : Root) (messageType : string) : list Field :=
  default [] (types root !! messageType).

(** Every reflection object of the graph has been linked, which is what
    [root.resolveAll()] establishes before any conversion starts. *)
Definition Root_resolved (root : Root) : Prop :=
  map_Forall (fun _ fs => Forall (fun f => Field.resolved f = true) fs) (types root).

#[global] Instance Root_resolved_dec root : Decision (Root_resolved root).
Proof. unfold Root_resolved. apply _. Defined.

(** ** Errors, outcomes and the converter's monad *)

Inductive Error : Type :=
| SchemaLoadFailed (reason : string)
| MessageNotFound (messageName : string)  (* "no such type: <name>" *)
| NoMessageTypeFound                      (* "Message type not found in proto file" *)
| CircularReference (typeName : string)   (* "Circular reference detected for message type: <name>" *)
| UnsupportedType (tag : string).         (* "Unsupported field type: <tag>" *)

Inductive Outcome (A : Type) : Type :=
| Return (a : A)
| Throw (e : Error)
| OutOfFuel.
Arguments Return {A} a.
Arguments Throw {A} e.
Arguments OutOfFuel {A}.

(** The mutable part of the world: the graph the current call works on and
    the converter's cache [this._processedMessages]. *)
Record Heap : Type := mkHeap {
  root : Root;
  _processedMessages : gmap string (list Column)
}.

Definition M (A : Type) : Type := Heap -> Outcome A * Heap.

#[global] Instance M_ret : MRet M := fun A a h => (Return a, h).
#[global] Instance M_bind : MBind M := fun A B k m h =>
  match m h with
  | (Return a, h') => k a h'
  | (Throw e, h') => (Throw e, h')
  | (OutOfFuel, h') => (OutOfFuel, h')
  end.
#[global] Instance M_throw : MThrow Error M := fun A e h => (Throw e, h).

Definition out_of_fuel {A} : M A := fun h => (OutOfFuel, h).

Definition get_root : M Root := fun h => (Return (root h), h).
Definition set_root (g : Root) : M unit :=
  fun h => (Return tt, mkHeap g (_processedMessages h)).
Definition get_processedMessages : M (gmap string (list Column)) :=
  fun h => (Return (_processedMessages h), h).
Definition set_processedMessages (key : string) (columns : list Column) : M unit :=
  fun h => (Return tt, mkHeap (root h) (<[key := columns]> (_processedMessages h))).

(** A library call only sees the reflection graph. *)
Definition lift_root {A} (op : Root -> Outcome A * Root) : M A := fun h =>
  let '(r, g) := op (root h) in (r, mkHeap g (_processedMessages h)).

(** [for (const x of xs) body(x)] *)
Fixpoint for_of {A} (xs : list A) (body : A -> M unit) : M unit :=
  match xs with
  | [] => mret tt
  | x :: xs => body x ;; for_of xs body
  end.

(** ** protobuf.js, the external loader

    The library's code is not part of the repository.  Its methods are taken
    as parameters; the only facts used about them are the two guards of
    [ProtobufjsContract]: a reflection object that is already resolved is
    returned untouched. *)

Class Protobufjs : Type := {
  (* new protobuf.Root().loadSync(protoFile, { keepCase: true }) *)
  loadSync : string -> Outcome Root;
  (* root.resolveAll() *)
  Root_resolveAll : Root -> Outcome unit * Root;
  (* messageType.resolveAll() *)
  Type_resolveAll : string -> Root -> Outcome unit * Root;
  (* field.resolve(): the field as it reads after the call *)
  Field_resolve : Field -> Root -> Outcome Field * Root
}.

Class ProtobufjsContract (lib : Protobufjs) : Prop := {
  Field_resolve_resolved : forall (f : Field) (g : Root),
    Field.resolved f = true -> Field_resolve f g = (Return f, g);
  Type_resolveAll_resolved : forall (t : string) (g : Root),
    Root_resolved g -> Type_resolveAll t g = (Return tt, g)
}.

(** Modelled from the spec: [root.lookupType(messageName)] of protobuf.js,
    which is not in the repository: the name is looked up by exact
    fully-qualified name in the graph, and the call fails with
    [MessageNotFound messageName] if it is absent. *)
Definition lookupType (root : Root) (messageName : string) : M string :=
  match types root !! messageName with
  | Some _ => mret messageName
  | None => mthrow (MessageNotFound messageName)
  end.

(** ** src/generate-glue-schema.ts *)

(** The property names of [Object.prototype] (ECMAScript, 20.1.3 and
    B.2.2.1): every object written as a literal, the type mapping of a
    converter among them, inherits these. *)
Definition Object_prototype : list string :=
  [ "constructor"; "__defineGetter__"; "__defineSetter__"; "hasOwnProperty";
    "__lookupGetter__"; "__lookupSetter__"; "isPrototypeOf"; "propertyIsEnumerable";
    "toString"; "valueOf"; "__proto__"; "toLocaleString" ].

(** [key in obj] for a plain object [obj] whose own properties are the
    entries of the map: an own key, or a name inherited from
    [Object.prototype]. *)
Definition has_property (obj : gmap string GlueType) (key : string) : Prop :=
  is_Some (obj !! key) \/ key ∈ Object_prototype.

#[global] Instance has_property_dec obj key : Decision (has_property obj key).
Proof. unfold has_property. apply _. Defined.

(** [obj[key]]: the own property wins over the inherited one, and a read
    that finds neither yields [undefined]. *)
Definition get_property (obj : gmap string GlueType) (key : string) : GlueType :=
  match obj !! key with
  | Some value => value
  | None => if bool_decide (key ∈ Object_prototype) then Inherited key else inhabitant
  end.

(** [typeof key === 'string' && key in obj].  The key is the declared type
    of a field without resolved type, which is a string. *)
Definition assertKey (obj : gmap string GlueType) (key : string) : bool :=
  bool_decide (has_property obj key).

Definition DEFAULT_TYPE_MAPPING : gmap string GlueType :=
  list_to_map [
    ("double", glueSchema.DOUBLE);
    ("float", glueSchema.FLOAT);
    ("int64", glueSchema.BIG_INT);
    ("uint64", glueSchema.BIG_INT);
    ("int32", glueSchema.INTEGER);
    ("bool", glueSchema.BOOLEAN);
    ("string", glueSchema.STRING);
    ("bytes", glueSchema.STRING);
    ("enum", glueSchema.STRING)
  ].

(** The constructor: [{ ...DEFAULT_TYPE_MAPPING, ...config.typeMapping }];
    the entries spread last win. *)
Definition constructor_typeMapping (config : gmap string GlueType) : gmap string GlueType :=
  config ∪ DEFAULT_TYPE_MAPPING.

(** A fresh converter has an empty cache; [g] is whatever graph is around. *)
Definition constructor_heap (g : Root) : Heap := mkHeap g ∅.

(** Before anything is loaded there is no graph. *)
Definition no_graph : Root := mkRoot [] ∅.

Section Converter.
Context {lib : Protobufjs}.

(** [this.config.typeMapping], fixed when the converter is constructed. *)
Variable typeMapping : gmap string GlueType.

Definition Object_values_fields (messageType : string) : M (list Field) :=
  g ← get_root; mret (fields g messageType).

Definition _loadProtoFile (protoFile : string) : M unit :=
  match loadSync protoFile with
  | Return g => set_root g
  | Throw e => mthrow e
  | OutOfFuel => out_of_fuel
  end.

Definition _convertNonRepeatedField
    (_convertMessageType : string -> M (list Column)) (field : Field) : M Column :=
  field ← lift_root (Field_resolve field);
  match Field.resolvedType field with
  | Some (IsType fieldType) =>
      columns ← _convertMessageType fieldType;
      mret (mkColumn (Field.name field) (glueSchema.struct columns))
  | Some (IsEnum _) =>
      mret (mkColumn (Field.name field) (typeMapping !!! "enum"))
  | None =>
      let fieldType := Field.type field in
      if assertKey typeMapping fieldType
      then mret (mkColumn (Field.name field) (get_property typeMapping fieldType))
      else mthrow (UnsupportedType fieldType)
  end.

Definition _resolveRepeatedField
    (_convertMessageType : string -> M (list Column)) (field : Field) : M Column :=
  field ← lift_root (Field_resolve field);
  column ← _convertNonRepeatedField _convertMessageType field;
  mret (mkColumn (Field.name field) (glueSchema.array (type column))).

Definition _convertField
    (_convertMessageType : string -> M (list Column)) (field : Field) : M Column :=
  field ← lift_root (Field_resolve field);
  if Field.repeated field
  then _resolveRepeatedField _convertMessageType field
  else _convertNonRepeatedField _convertMessageType field.

Fixpoint _detectCircularReference (fuel : nat)
    (messageType referenceMessageType : string) : M unit :=
  match fuel with
  | 0 => out_of_fuel
  | S fuel =>
      lift_root (Type_resolveAll messageType) ;;
      fs ← Object_values_fields messageType;
      let circularFields :=
        filter (fun s => Field.resolvedType s = Some (IsType referenceMessageType)) fs in
      if (0 <? length circularFields)%nat
      then mthrow (CircularReference referenceMessageType)
      else
        for_of fs (fun field =>
          match Field.resolvedType field with
          | Some (IsType nestedType) =>
              _detectCircularReference fuel nestedType referenceMessageType
          | _ => mret tt
          end)
  end.

Fixpoint _convertMessageType (fuel : nat) (messageType : string) : M (list Column) :=
  match fuel with
  | 0 => out_of_fuel
  | S fuel =>
      cache ← get_processedMessages;
      match cache !! messageType with
      | Some columns => mret columns
      | None =>
          _detectCircularReference fuel messageType messageType ;;
          fs ← Object_values_fields messageType;
          columns ← mapM (_convertField (_convertMessageType fuel)) fs;
          set_processedMessages messageType columns ;;
          mret columns
      end
  end.

Definition find_Type (nested : list Nested) : option string :=
  match
    List.find (fun n => match n with NestedType _ => true | _ => false end) nested
  with
  | Some (NestedType t) => Some t
  | _ => None
  end.

Definition generateGlueSchema (fuel : nat) (protoFile : string)
    (messageName : option string) : M (list Column) :=
  _loadProtoFile protoFile ;;
  lift_root Root_resolveAll ;;
  g ← get_root;
  targetType ←
    match messageName with
    | Some messageName => t ← lookupType g messageName; mret (Some t)
    | None => mret (find_Type (nestedArray g))
    end;
  match targetType with
  | None => mthrow NoMessageTypeFound
  | Some targetType => _convertMessageType fuel targetType
  end.

End Converter.

(** [new ProtoToGlueConverter(config).generateGlueSchema(protoFile, messageName)]:
    a converter of its own for every call. *)
Definition convertProtoToGlueSchema {lib : Protobufjs} (fuel : nat) (protoFile : string)
    (messageName : option string) (config : gmap string GlueType) : Outcome (list Column) :=
  (generateGlueSchema (constructor_typeMapping config) fuel protoFile messageName
     (constructor_heap no_graph)).1.

(** ** A library instance for closed examples

    protobuf.js over graphs that the parser hands out fully linked:
    [resolve()] and [resolveAll()] find nothing left to do.  [files] maps a
    path to what [loadSync] yields for it. *)
Definition linked_protobufjs (files : string -> Outcome Root) : Protobufjs := {|
  loadSync := files;
  Root_resolveAll := fun g => (Return tt, g);
  Type_resolveAll := fun _ g => (Return tt, g);
  Field_resolve := fun f g => (Return f, g)
|}.

(** Field builders for linked graphs. *)
Definition scalar_field (n ty : string) : Field := Field.mk n ty None false true.
Definition message_field (n ty : string) : Field :=
  Field.mk n ty (Some (IsType ty)) false true.
Definition enum_field (n ty : string) : Field :=
  Field.mk n ty (Some (IsEnum ty)) false true.
Definition repeated_field (f : Field) : Field :=
  Field.mk (Field.name f) (Field.type f) (Field.resolvedType f) true (Field.resolved f).
Definition singular_field (f : Field) : Field :=
  Field.mk (Field.name f) (Field.type f) (Field.resolvedType f) false (Field.resolved f).

(** ** Containment between message types *)

(** [b] is the type of one of [a]'s fields: one step of containment. *)
Definition contains (g : Root) (a b : string) : Prop :=
  Exists (fun f => Field.resolvedType f = Some (IsType b)) (fields g a).

#[global] Instance contains_dec g a b : Decision (contains g a b).
Proof. unfold contains. apply _. Defined.

(** [a] has a field typed [origin]: the test of the first loop. *)
Definition refers_to (g : Root) (origin a : string) : bool :=
  (0 <? length (filter (fun s => Field.resolvedType s = Some (IsType origin)) (fields g a)))%nat.

(** The search started at [cur] is over within [d] nested calls: every chain
    of message-typed fields from [cur] either reaches, within [d] steps, a
    type that has a field typed [origin], or ends. *)
Fixpoint search_ends (g : Root) (origin : string) (d : nat) (cur : string) : bool :=
  match d with
  | 0 => false
  | S d =>
      refers_to g origin cur ||
      forallb (fun f =>
                 match Field.resolvedType f with
                 | Some (IsType t) => search_ends g origin d t
                 | _ => true
                 end) (fields g cur)
  end.

(** The fields of one type, searched in declaration order: a field whose
    search finds the origin settles it; a field whose search ends lets the
    next one be searched; behind a field whose search does neither, nothing
    is looked at. *)
Fixpoint first_finds (finds ends : string -> bool) (fs : list Field) : bool :=
  match fs with
  | [] => false
  | f :: fs =>
      match Field.resolvedType f with
      | Some (IsType t) => finds t || (ends t && first_finds finds ends fs)
      | _ => first_finds finds ends fs
      end
  end.

(** The search started at [cur] gets, within [d] nested calls, to a type
    that has a field typed [origin]: [cur] has such a field, or, following
    the message-typed fields in declaration order, the search below one of
    them gets to such a type and the search below each one before it
    ends. *)
Fixpoint search_finds (g : Root) (origin : string) (d : nat) (cur : string) : bool :=
  match d with
  | 0 => false
  | S d =>
      refers_to g origin cur ||
      first_finds (search_finds g origin d) (search_ends g origin d) (fields g cur)
  end.

(** Every chain of message-typed fields from [cur] ends within [d] steps. *)
Fixpoint nesting_ends (g : Root) (d : nat) (cur : string) : bool :=
  match d with
  | 0 => false
  | S d =>
      forallb (fun f =>
                 match Field.resolvedType f with
                 | Some (IsType t) => nesting_ends g d t
                 | _ => true
                 end) (fields g cur)
  end.

(** Every chain of message-typed fields from [cur] ends within [d] steps, and
    every scalar field met on the way has a tag that the guard lets through:
    an entry of the mapping, or a name that the mapping inherits. *)
Fixpoint convertible (typeMapping : gmap string GlueType) (g : Root) (d : nat)
    (cur : string) : bool :=
  match d with
  | 0 => false
  | S d =>
      forallb (fun f =>
                 match Field.resolvedType f with
                 | Some (IsType t) => convertible typeMapping g d t
                 | Some (IsEnum _) => true
                 | None => assertKey typeMapping (Field.type f)
                 end) (fields g cur)
  end.

(** ** Predicates on computations *)

(** Whatever the outcome, every entry present before is present after. *)
Definition grows {A} (m : M A) : Prop :=
  forall h, _processedMessages h ⊆ _processedMessages (m h).2.

(** [m'] ends as [m] does whenever [m] ends within its fuel. *)
Definition settles {A} (m m' : M A) : Prop :=
  forall h r h', m h = (r, h') -> r <> OutOfFuel -> m' h = (r, h').

(** ** Columns that follow the declared fields *)

(** Column [c] stands for field [f]: it carries the field's name, and when
    the field is message-typed its type is the structure of sub-columns of
    that message (inside a list for a repeated field), which [sub_ok]
    relates to the nested type. *)
Definition column_follows (sub_ok : string -> list Column -> Prop)
    (f : Field) (c : Column) : Prop :=
  name c = Field.name f /\
  forall t, Field.resolvedType f = Some (IsType t) ->
    exists sub,
      type c = (if Field.repeated f
                then glueSchema.array (glueSchema.struct sub)
                else glueSchema.struct sub) /\
      sub_ok t sub.

#[local] Unset Elimination Schemes.

(** [columns] has one column per field of [N], in declaration order, and so
    on down every nested message. *)
Inductive follows (g : Root) : string -> list Column -> Prop :=
| follows_fields N columns :
    Forall2 (column_follows (follows g)) (fields g N) columns ->
    follows g N columns.

#[local] Set Elimination Schemes.

(** Every cached sequence was computed from graph [g]. *)
Definition cache_follows (g : Root) (cache : gmap string (list Column)) : Prop :=
  map_Forall (follows g) cache.

(** What holds between two calls on the same graph [g]. *)
Definition same_graph (g : Root) (h : Heap) : Prop :=
  root h = g /\ cache_follows g (_processedMessages h).

(** ** Well-formed roots and the default table *)

(** Every top-level message type is a message type of the graph. *)
Definition Root_wf (g : Root) : Prop :=
  forall t, NestedType t ∈ nestedArray g -> is_Some (types g !! t).

(** The rows of the default mapping, as the README lists them. *)
Definition default_entries : list (string * GlueType) :=
  [ ("double", glueSchema.DOUBLE); ("float", glueSchema.FLOAT);
    ("int64", glueSchema.BIG_INT); ("uint64", glueSchema.BIG_INT);
    ("int32", glueSchema.INTEGER); ("bool", glueSchema.BOOLEAN);
    ("string", glueSchema.STRING); ("bytes", glueSchema.STRING);
    ("enum", glueSchema.STRING) ].

(** * Schemas of the test suite and of the README *)

Module Examples.
(** test-comprehensive-mock.proto *)
Definition comprehensive : Root :=
  mkRoot
    [NestedEnum ".GlobalStatus"; NestedType ".NestedMessage"; NestedType ".TestMessage"]
    (list_to_map [
       (".NestedMessage",
        [scalar_field "is_active" "bool"; scalar_field "score" "double"]);
       (".TestMessage",
        [scalar_field "name" "string";
         scalar_field "age" "int32";
         scalar_field "height" "double";
         scalar_field "weight" "float";
         scalar_field "is_student" "bool";
         scalar_field "custom_data" "bytes";
         repeated_field (scalar_field "hobbies" "string");
         repeated_field (scalar_field "scores" "int64");
         message_field "nested_info" ".NestedMessage";
         enum_field "user_status" ".GlobalStatus";
         repeated_field (enum_field "status_history" ".GlobalStatus");
         enum_field "local_status" ".TestMessage.LocalStatus"])
     ]).

(** test-empty-mock.proto *)
Definition empty : Root := mkRoot [] ∅.

(** test-direct-circular-mock.proto *)
Definition direct_circular : Root :=
  mkRoot [NestedType ".CircularMessage"]
    (list_to_map [
       (".CircularMessage",
        [message_field "self" ".CircularMessage"; scalar_field "name" "string"])
     ]).

(** test-indirect-circular-mock.proto *)
Definition indirect_circular : Root :=
  mkRoot [NestedType ".MessageA"; NestedType ".MessageB"]
    (list_to_map [
       (".MessageA", [message_field "ref" ".MessageB"; scalar_field "name" "string"]);
       (".MessageB", [message_field "back_ref" ".MessageA"; scalar_field "value" "int32"])
     ]).

(** memoization-test.proto *)
Definition memoization : Root :=
  mkRoot [NestedType ".ParentMessage"; NestedType ".NestedMessage"]
    (list_to_map [
       (".ParentMessage",
        [message_field "nested_1" ".NestedMessage";
         message_field "nested_2" ".NestedMessage";
         message_field "nested_3" ".NestedMessage"]);
       (".NestedMessage", [scalar_field "field1" "string"; scalar_field "field2" "int32"])
     ]).

(** example.proto of the README *)
Definition user : Root :=
  mkRoot [NestedType ".User"; NestedType ".Address"]
    (list_to_map [
       (".User",
        [scalar_field "name" "string";
         scalar_field "age" "int32";
         repeated_field (scalar_field "hobbies" "string");
         message_field "address" ".Address"]);
       (".Address", [scalar_field "street" "string"; scalar_field "city" "string"])
     ]).

(** A second schema that also declares [.CircularMessage], without the
    self-reference. *)
Definition plain_circular : Root :=
  mkRoot [NestedType ".CircularMessage"]
    (list_to_map [(".CircularMessage", [scalar_field "name" "string"])]).

(** A second schema that also declares [.Address], with other fields. *)
Definition other_address : Root :=
  mkRoot [NestedType ".Address"]
    (list_to_map [
       (".Address", [scalar_field "zip" "int32"; scalar_field "country" "string";
                     scalar_field "line" "string"])
     ]).

(** [A] holds a [B]; [B] and [C] hold each other. *)
Definition side_cycle : Root :=
  mkRoot [NestedType ".A"; NestedType ".B"; NestedType ".C"]
    (list_to_map [
       (".A", [message_field "b" ".B"]);
       (".B", [message_field "c" ".C"]);
       (".C", [message_field "b" ".B"])
     ]).

(** [Order] is on a cycle through [Customer], and its first field leads to
    [Audit] and [Entry], which hold each other. *)
Definition back_edge_behind_cycle : Root :=
  mkRoot [NestedType ".Order"; NestedType ".Audit"; NestedType ".Entry";
          NestedType ".Customer"]
    (list_to_map [
       (".Order", [message_field "audit" ".Audit"; message_field "customer" ".Customer"]);
       (".Audit", [message_field "entry" ".Entry"]);
       (".Entry", [message_field "audit" ".Audit"]);
       (".Customer", [message_field "last_order" ".Order"])
     ]).

(** The same types, the two fields of [Order] the other way round: the
    field that leads back to [Order] is declared first. *)
Definition back_edge_before_cycle : Root :=
  mkRoot [NestedType ".Order"; NestedType ".Audit"; NestedType ".Entry";
          NestedType ".Customer"]
    (list_to_map [
       (".Order", [message_field "customer" ".Customer"; message_field "audit" ".Audit"]);
       (".Audit", [message_field "entry" ".Entry"]);
       (".Entry", [message_field "audit" ".Audit"]);
       (".Customer", [message_field "last_order" ".Order"])
     ]).

(** A message with a scalar type that the default mapping does not list. *)
Definition counters : Root :=
  mkRoot [NestedType ".Counters"]
    (list_to_map [
       (".Counters", [scalar_field "label" "string"; scalar_field "hits" "uint32";
                      scalar_field "total" "int64"])
     ]).

(** A message with a field whose declared type is the name of a property
    of [Object.prototype]; the field has no resolved type, as a scalar
    field has none. *)
Definition event : Root :=
  mkRoot [NestedType ".Event"]
    (list_to_map [
       (".Event", [scalar_field "label" "string"; scalar_field "stamp" "toString"])
     ]).

Definition files (path : string) : Outcome Root :=
  if String.eqb path "test-comprehensive-mock.proto" then Return comprehensive
  else if String.eqb path "test-empty-mock.proto" then Return empty
  else if String.eqb path "test-direct-circular-mock.proto" then Return direct_circular
  else if String.eqb path "test-indirect-circular-mock.proto" then Return indirect_circular
  else if String.eqb path "memoization-test.proto" then Return memoization
  else if String.eqb path "example.proto" then Return user
  else if String.eqb path "plain.proto" then Return plain_circular
  else if String.eqb path "other-address.proto" then Return other_address
  else if String.eqb path "side-cycle.proto" then Return side_cycle
  else if String.eqb path "counters.proto" then Return counters
  else if String.eqb path "order.proto" then Return back_edge_before_cycle
  else if String.eqb path "event.proto" then Return event
  else Throw (SchemaLoadFailed path).

Definition protobufjs : Protobufjs := linked_protobufjs files.
End Examples.

(** What the README gives for [User], and the cache after converting it. *)
Definition user_columns : list Column :=
  [ mkColumn "name" glueSchema.STRING;
    mkColumn "age" glueSchema.INTEGER;
    mkColumn "hobbies" (glueSchema.array glueSchema.STRING);
    mkColumn "address"
      (glueSchema.struct
         [mkColumn "street" glueSchema.STRING; mkColumn "city" glueSchema.STRING]) ].

Definition address_columns : list Column :=
  [mkColumn "street" glueSchema.STRING; mkColumn "city" glueSchema.STRING].

Definition user_cache : gmap string (list Column) :=
  <[".User" := user_columns]> (<[".Address" := address_columns]> ∅).

(** ** The JSON form of a schema *)

Module IGlueJsonSchema.
Record t : Type := mk {
  name : string;
  type : string
}.
End IGlueJsonSchema.

(** [convertProtoToGlueSchema(protoFile, messageName, config).map(c => ...)].
    [inputString] is [type.inputString] of aws-glue-alpha, outside the
    repository: a parameter. *)
Definition convertProtoToJSONGlueSchema {lib : Protobufjs} (inputString : GlueType -> string)
    (fuel : nat) (protoFile : string) (messageName : option string)
    (config : gmap string GlueType) : Outcome (list IGlueJsonSchema.t) :=
  match convertProtoToGlueSchema fuel protoFile messageName config with
  | Return columns =>
      Return (map (fun c => IGlueJsonSchema.mk (name c) (inputString (type c))) columns)
  | Throw e => Throw e
  | OutOfFuel => OutOfFuel
  end.

(** The type strings as the README's JSON output shows them; used for the
    worked example only. *)
Fixpoint readme_inputString (t : GlueType) : string :=
  match t with
  | Primitive s => s
  | ArrayOf item => "array<" ++ readme_inputString item ++ ">"
  | StructOf columns =>
      "struct<" ++
      String.concat ","
        (map (fun c => let 'mkColumn n ty := c in n ++ ":" ++ readme_inputString ty) columns)
      ++ ">"
  | Inherited _ => "undefined"
  end.

(** No field of the graph has the scalar tag [K]; and no field is an enum
    if [K] is the tag [enum]. *)
Definition tag_unused (K : string) (g : Root) : Prop :=
  map_Forall (fun _ fs =>
    Forall (fun f =>
      match Field.resolvedType f with
      | None => Field.type f <> K
      | Some (IsEnum _) => K <> "enum"
      | Some (IsType _) => True
      end) fs) (types g).

#[global] Instance tag_unused_dec K g : Decision (tag_unused K g).
Proof.
  unfold tag_unused. apply map_Forall_dec. intros _ fs. apply Forall_dec. intros f.
  destruct (Field.resolvedType f) as [[t|e]|]; apply _.
Defined.

(** What an error of [_convertMessageType] for [N] tells about the graph:
    a type nested in [N] that lies on a containment cycle, or a scalar field
    nested in [N] whose tag the mapping does not list. *)
Definition genuine_error (typeMapping : gmap string GlueType) (g : Root) (N : string)
    (e : Error) : Prop :=
  (exists t, e = CircularReference t /\
             rtc (contains g) N t /\ tc (contains g) t t) \/
  (exists T f, e = UnsupportedType (Field.type f) /\
               rtc (contains g) N T /\ f ∈ fields g T /\
               Field.resolvedType f = None /\ typeMapping !! Field.type f = None).

(** * Properties *)

#[global] Instance linked_protobufjs_contract files :
  ProtobufjsContract (linked_protobufjs files).
Proof. split; reflexivity. Qed.

(** ** Running the monad *)

Lemma mkHeap_eta h : mkHeap (root h) (_processedMessages h) = h.
Proof. by destruct h. Qed.

Lemma run_bind {A B} (m : M A) (k : A -> M B) h :
  (m ≫= k) h =
  match m h with
  | (Return a, h') => k a h'
  | (Throw e, h') => (Throw e, h')
  | (OutOfFuel, h') => (OutOfFuel, h')
  end.
Proof. reflexivity. Qed.

Lemma run_ret {A} (a : A) h : (mret a : M A) h = (Return a, h).
Proof. reflexivity. Qed.

Lemma run_throw {A} e h : (mthrow e : M A) h = (Throw e, h).
Proof. reflexivity. Qed.

Lemma run_mapM_nil {A B} (f : A -> M B) h : mapM f [] h = (Return [], h).
Proof. reflexivity. Qed.

Lemma run_mapM_cons {A B} (f : A -> M B) x xs h :
  mapM f (x :: xs) h =
  match f x h with
  | (Return y, h1) =>
      match mapM f xs h1 with
      | (Return ys, h2) => (Return (y :: ys), h2)
      | (Throw e, h2) => (Throw e, h2)
      | (OutOfFuel, h2) => (OutOfFuel, h2)
      end
  | (Throw e, h1) => (Throw e, h1)
  | (OutOfFuel, h1) => (OutOfFuel, h1)
  end.
Proof.
  change (mapM f (x :: xs)) with (y ← f x; k ← mapM f xs; mret (y :: k)).
  rewrite run_bind. by destruct (f x h) as [[y|e|] h1].
Qed.

Lemma run_for_of_cons {A} (body : A -> M unit) x xs h :
  for_of (x :: xs) body h =
  match body x h with
  | (Return _, h1) => for_of xs body h1
  | (Throw e, h1) => (Throw e, h1)
  | (OutOfFuel, h1) => (OutOfFuel, h1)
  end.
Proof. reflexivity. Qed.

Section Library.
Context {lib : Protobufjs} {contract : ProtobufjsContract lib}.

Lemma run_Field_resolve f h :
  Field.resolved f = true -> lift_root (Field_resolve f) h = (Return f, h).
Proof.
  intros Hf. unfold lift_root. rewrite (Field_resolve_resolved f _ Hf).
  by rewrite mkHeap_eta.
Qed.

Lemma run_Type_resolveAll t h :
  Root_resolved (root h) -> lift_root (Type_resolveAll t) h = (Return tt, h).
Proof.
  intros Hg. unfold lift_root. rewrite (Type_resolveAll_resolved t _ Hg).
  by rewrite mkHeap_eta.
Qed.
End Library.

Lemma fields_resolved g N f :
  Root_resolved g -> f ∈ fields g N -> Field.resolved f = true.
Proof.
  unfold fields. intros Hg Hf. destruct (types g !! N) as [fs|] eqn:E; simpl in Hf.
  - specialize (Hg N fs E). simpl in Hg. rewrite Forall_forall in Hg. by apply Hg.
  - by apply elem_of_nil in Hf.
Qed.

(** ** Field conversion on a linked field *)

Section FieldConversion.
Context {lib : Protobufjs} {contract : ProtobufjsContract lib}.
Variable typeMapping : gmap string GlueType.
Variable rec : string -> M (list Column).

Lemma assertKey_Some key ty : typeMapping !! key = Some ty -> assertKey typeMapping key = true.
Proof. intros E. unfold assertKey. apply bool_decide_eq_true. left. eauto. Qed.

Lemma assertKey_inherited key : key ∈ Object_prototype -> assertKey typeMapping key = true.
Proof. intros E. unfold assertKey. apply bool_decide_eq_true. by right. Qed.

Lemma assertKey_None key :
  typeMapping !! key = None -> key ∉ Object_prototype -> assertKey typeMapping key = false.
Proof.
  intros E Hproto. unfold assertKey. apply bool_decide_eq_false.
  intros [[? Hown] | ?]; [by rewrite E in Hown|done].
Qed.

Lemma assertKey_false key :
  assertKey typeMapping key = false -> typeMapping !! key = None /\ key ∉ Object_prototype.
Proof.
  unfold assertKey. intros Hno. apply bool_decide_eq_false in Hno. split.
  - destruct (typeMapping !! key) as [ty|] eqn:E; [|done]. destruct Hno. left. by eexists.
  - intros Hin. apply Hno. by right.
Qed.

Lemma get_property_Some key ty : typeMapping !! key = Some ty -> get_property typeMapping key = ty.
Proof. intros E. unfold get_property. by rewrite E. Qed.

Lemma get_property_inherited key :
  typeMapping !! key = None -> key ∈ Object_prototype ->
  get_property typeMapping key = Inherited key.
Proof. intros E Hin. unfold get_property. by rewrite E, bool_decide_eq_true_2. Qed.

Lemma run_convertNonRepeatedField_scalar f ty h :
  Field.resolved f = true ->
  Field.resolvedType f = None ->
  typeMapping !! Field.type f = Some ty ->
  _convertNonRepeatedField typeMapping rec f h = (Return (mkColumn (Field.name f) ty), h).
Proof.
  intros Hres Hnull Hty. unfold _convertNonRepeatedField.
  rewrite run_bind, run_Field_resolve by done. rewrite Hnull. cbv zeta.
  rewrite (assertKey_Some _ _ Hty), (get_property_Some _ _ Hty). reflexivity.
Qed.

(** A tag that the mapping only inherits passes the guard: the column gets
    the inherited value for its type. *)
Lemma run_convertNonRepeatedField_inherited f h :
  Field.resolved f = true ->
  Field.resolvedType f = None ->
  typeMapping !! Field.type f = None ->
  Field.type f ∈ Object_prototype ->
  _convertNonRepeatedField typeMapping rec f h =
    (Return (mkColumn (Field.name f) (Inherited (Field.type f))), h).
Proof.
  intros Hres Hnull Hty Hin. unfold _convertNonRepeatedField.
  rewrite run_bind, run_Field_resolve by done. rewrite Hnull. cbv zeta.
  rewrite (assertKey_inherited _ Hin), (get_property_inherited _ Hty Hin). reflexivity.
Qed.

Lemma run_convertNonRepeatedField_unmapped f h :
  Field.resolved f = true ->
  Field.resolvedType f = None ->
  typeMapping !! Field.type f = None ->
  Field.type f ∉ Object_prototype ->
  _convertNonRepeatedField typeMapping rec f h = (Throw (UnsupportedType (Field.type f)), h).
Proof.
  intros Hres Hnull Hty Hproto. unfold _convertNonRepeatedField.
  rewrite run_bind, run_Field_resolve by done. rewrite Hnull. cbv zeta.
  rewrite (assertKey_None _ Hty Hproto). reflexivity.
Qed.

(** The three ways of a field without resolved type. *)
Lemma run_convertNonRepeatedField_tag f h :
  Field.resolved f = true ->
  Field.resolvedType f = None ->
  _convertNonRepeatedField typeMapping rec f h =
    if assertKey typeMapping (Field.type f)
    then (Return (mkColumn (Field.name f) (get_property typeMapping (Field.type f))), h)
    else (Throw (UnsupportedType (Field.type f)), h).
Proof.
  intros Hres Hnull. unfold _convertNonRepeatedField.
  rewrite run_bind, run_Field_resolve by done. rewrite Hnull. cbv zeta.
  by destruct (assertKey typeMapping (Field.type f)).
Qed.

Lemma run_convertNonRepeatedField_enum f e h :
  Field.resolved f = true ->
  Field.resolvedType f = Some (IsEnum e) ->
  _convertNonRepeatedField typeMapping rec f h =
    (Return (mkColumn (Field.name f) (typeMapping !!! "enum")), h).
Proof.
  intros Hres He. unfold _convertNonRepeatedField.
  rewrite run_bind, run_Field_resolve by done. by rewrite He.
Qed.

Lemma run_convertNonRepeatedField_message f t h :
  Field.resolved f = true ->
  Field.resolvedType f = Some (IsType t) ->
  _convertNonRepeatedField typeMapping rec f h =
    match rec t h with
    | (Return columns, h') =>
        (Return (mkColumn (Field.name f) (glueSchema.struct columns)), h')
    | (Throw e, h') => (Throw e, h')
    | (OutOfFuel, h') => (OutOfFuel, h')
    end.
Proof.
  intros Hres Ht. unfold _convertNonRepeatedField.
  rewrite run_bind, run_Field_resolve by done. rewrite Ht, run_bind.
  by destruct (rec t h) as [[cols|e|] h'].
Qed.

Lemma run_convertField f h :
  Field.resolved f = true ->
  _convertField typeMapping rec f h =
    if Field.repeated f then
      match _convertNonRepeatedField typeMapping rec f h with
      | (Return column, h') =>
          (Return (mkColumn (Field.name f) (glueSchema.array (type column))), h')
      | (Throw e, h') => (Throw e, h')
      | (OutOfFuel, h') => (OutOfFuel, h')
      end
    else _convertNonRepeatedField typeMapping rec f h.
Proof.
  intros Hres. unfold _convertField.
  rewrite run_bind, run_Field_resolve by done.
  destruct (Field.repeated f); [|done].
  unfold _resolveRepeatedField. rewrite run_bind, run_Field_resolve by done.
  rewrite run_bind.
  by destruct (_convertNonRepeatedField typeMapping rec f h) as [[c|e|] h'].
Qed.

(** The singular path never reads the [repeated] flag. *)
Lemma run_convertNonRepeatedField_singular f h :
  Field.resolved f = true ->
  _convertNonRepeatedField typeMapping rec (singular_field f) h =
  _convertNonRepeatedField typeMapping rec f h.
Proof.
  intros Hres. unfold _convertNonRepeatedField.
  rewrite !run_bind, !run_Field_resolve by done. reflexivity.
Qed.

(** The name of a column is the name of its field, whatever its type. *)
Lemma convertField_name f h c h' :
  Field.resolved f = true ->
  _convertField typeMapping rec f h = (Return c, h') -> name c = Field.name f.
Proof.
  intros Hres. rewrite run_convertField by done.
  assert (forall c1 h1, _convertNonRepeatedField typeMapping rec f h = (Return c1, h1) ->
                        name c1 = Field.name f) as Hsingular.
  { intros c1 h1. unfold _convertNonRepeatedField.
    rewrite run_bind, run_Field_resolve by done.
    destruct (Field.resolvedType f) as [[t|e]|].
    - rewrite run_bind. destruct (rec t h) as [[cols|e|] h2]; [|done..].
      rewrite run_ret. by intros [= <- _].
    - rewrite run_ret. by intros [= <- _].
    - cbv zeta. destruct (assertKey _ _); [|done]. rewrite run_ret. by intros [= <- _]. }
  destruct (Field.repeated f); [|by eauto].
  destruct (_convertNonRepeatedField typeMapping rec f h) as [[c1|e|] h1]; [|done..].
  by intros [= <- _].
Qed.
End FieldConversion.

(** ** Circular-reference detection *)

Lemma refers_to_contains g origin a : refers_to g origin a = true <-> contains g a origin.
Proof.
  unfold refers_to, contains. rewrite Nat.ltb_lt, Exists_exists. split.
  - intros Hlen.
    destruct (filter _ (fields g a)) as [|f fs] eqn:E; [simpl in Hlen; lia|].
    assert (f ∈ filter (fun s => Field.resolvedType s = Some (IsType origin)) (fields g a)) as Hf.
    { rewrite E. left. }
    apply list_elem_of_filter in Hf as [Hty Hin]. by exists f.
  - intros (f & Hf & Hty).
    assert (f ∈ filter (fun s => Field.resolvedType s = Some (IsType origin)) (fields g a)) as Hin.
    { apply list_elem_of_filter. done. }
    destruct (filter _ (fields g a)); [by apply elem_of_nil in Hin | simpl; lia].
Qed.

Lemma search_ends_mono g origin d d' cur :
  d <= d' -> search_ends g origin d cur = true -> search_ends g origin d' cur = true.
Proof.
  revert d' cur. induction d as [|d IH]; intros d' cur Hle; [done|].
  destruct d' as [|d']; [lia|]. simpl.
  destruct (refers_to g origin cur); [done|]. simpl.
  rewrite !forallb_forall. intros Hall f Hf. specialize (Hall f Hf).
  destruct (Field.resolvedType f) as [[t|]|]; try done. apply IH; [lia|done].
Qed.

Section Detection.
Context {lib : Protobufjs} {contract : ProtobufjsContract lib}.

(** One call on a linked graph, with the library calls resolved away. *)
Lemma run_detect_S fuel cur origin h :
  Root_resolved (root h) ->
  _detectCircularReference (S fuel) cur origin h =
    if refers_to (root h) origin cur
    then (Throw (CircularReference origin), h)
    else for_of (fields (root h) cur) (fun field =>
           match Field.resolvedType field with
           | Some (IsType nestedType) => _detectCircularReference fuel nestedType origin
           | _ => mret tt
           end) h.
Proof.
  intros Hg. simpl. rewrite run_bind, run_Type_resolveAll by done.
  unfold Object_values_fields. rewrite !run_bind. unfold get_root. rewrite run_ret.
  unfold refers_to. by destruct (0 <? _)%nat.
Qed.

(** Detection writes nothing: neither the graph nor the cache. *)
Lemma detect_heap fuel cur origin h :
  Root_resolved (root h) -> (_detectCircularReference fuel cur origin h).2 = h.
Proof.
  revert cur h. induction fuel as [|fuel IH]; intros cur h Hg; [done|].
  rewrite run_detect_S by done. destruct (refers_to _ _ _); [done|].
  generalize (fields (root h) cur). intros fs. revert h Hg.
  induction fs as [|f fs IHfs]; intros h Hg; [done|].
  rewrite run_for_of_cons. cbv beta.
  destruct (Field.resolvedType f) as [[t|]|].
  - pose proof (IH t h Hg) as Hbody.
    destruct (_detectCircularReference fuel t origin h) as [[[]|e|] h1];
      simpl in Hbody; subst h1; [by apply IHfs|done..].
  - rewrite run_ret. by apply IHfs.
  - rewrite run_ret. by apply IHfs.
Qed.

(** A search that returns found no way back to [origin]. *)
Lemma detect_Return_no_path fuel cur origin h h' :
  Root_resolved (root h) ->
  _detectCircularReference fuel cur origin h = (Return tt, h') ->
  ~ tc (contains (root h)) cur origin.
Proof.
  intros Hg. revert cur h'. induction fuel as [|fuel IH]; intros cur h'; [done|].
  rewrite run_detect_S by done.
  destruct (refers_to (root h) origin cur) eqn:Hdirect; [done|].
  intros Hloop Hpath.
  assert (forall f t, f ∈ fields (root h) cur ->
            Field.resolvedType f = Some (IsType t) ->
            exists h1, _detectCircularReference fuel t origin h = (Return tt, h1)) as Hsub.
  { revert Hloop. generalize (fields (root h) cur). intros fs.
    induction fs as [|f0 fs IHfs]; intros Hloop f t Hf Hty;
      [by apply elem_of_nil in Hf|].
    rewrite run_for_of_cons in Hloop. cbv beta in Hloop.
    destruct (Field.resolvedType f0) as [[t0|]|] eqn:E0.
    - pose proof (detect_heap fuel t0 origin h Hg) as Hh.
      destruct (_detectCircularReference fuel t0 origin h) as [[[]|e|] h1] eqn:Ecall;
        [|done..].
      simpl in Hh. subst h1. apply elem_of_cons in Hf as [->|Hf]; [|by eauto].
      rewrite E0 in Hty. injection Hty as <-. eauto.
    - rewrite run_ret in Hloop.
      apply elem_of_cons in Hf as [->|Hf]; [congruence|by eauto].
    - rewrite run_ret in Hloop.
      apply elem_of_cons in Hf as [->|Hf]; [congruence|by eauto]. }
  inversion Hpath as [? ? Hstep|? t ? Hstep Hrest]; subst.
  - apply refers_to_contains in Hstep. congruence.
  - apply Exists_exists in Hstep as (f & Hf & Hty).
    destruct (Hsub f t Hf Hty) as [h1 Hcall]. by eapply IH.
Qed.

(** A bounded search comes to a verdict and leaves the heap alone. *)
Lemma detect_total d fuel cur origin h :
  Root_resolved (root h) ->
  search_ends (root h) origin d cur = true ->
  d <= fuel ->
  _detectCircularReference fuel cur origin h = (Return tt, h) \/
  _detectCircularReference fuel cur origin h = (Throw (CircularReference origin), h).
Proof.
  intros Hg. revert fuel cur.
  induction d as [|d IH]; intros fuel cur Hends Hle; [done|].
  destruct fuel as [|fuel]; [lia|]. rewrite run_detect_S by done.
  simpl in Hends. destruct (refers_to (root h) origin cur); [by right|].
  simpl in Hends. rewrite forallb_forall in Hends.
  revert Hends. generalize (fields (root h) cur). intros fs.
  induction fs as [|f fs IHfs]; intros Hends; [by left|].
  rewrite run_for_of_cons. cbv beta.
  pose proof (Hends f ltac:(by left)) as Hf.
  assert (forall x, In x fs ->
            match Field.resolvedType x with
            | Some (IsType t) => search_ends (root h) origin d t
            | _ => true
            end = true) as Hrest.
  { intros x Hx. apply Hends. by right. }
  destruct (Field.resolvedType f) as [[t|]|].
  - destruct (IH fuel t Hf ltac:(lia)) as [-> | ->]; [by apply IHfs|by right].
  - rewrite run_ret. by apply IHfs.
  - rewrite run_ret. by apply IHfs.
Qed.
End Detection.

(** ** Message conversion *)

Lemma bind_Return_inv {A B} (m : M A) (k : A -> M B) h b h' :
  (m ≫= k) h = (Return b, h') ->
  exists a h1, m h = (Return a, h1) /\ k a h1 = (Return b, h').
Proof. rewrite run_bind. destruct (m h) as [[a|e|] h1]; [by eauto|done..]. Qed.

(** A cache hit answers at once: no library call, no look at the graph or at
    the type mapping. *)
Lemma run_convertMessageType_cached {lib : Protobufjs} typeMapping fuel N h columns :
  _processedMessages h !! N = Some columns ->
  _convertMessageType typeMapping (S fuel) N h = (Return columns, h).
Proof.
  intros Hhit. simpl. rewrite run_bind. unfold get_processedMessages. by rewrite Hhit.
Qed.

(** A call that returns has its answer in the cache. *)
Lemma convertMessageType_Return_cached {lib : Protobufjs} typeMapping fuel N h columns h' :
  _convertMessageType typeMapping fuel N h = (Return columns, h') ->
  _processedMessages h' !! N = Some columns.
Proof.
  destruct fuel as [|fuel]; [done|]. simpl. rewrite run_bind.
  unfold get_processedMessages.
  destruct (_processedMessages h !! N) as [cached|] eqn:Hhit.
  - rewrite run_ret. intros [= <- <-]. done.
  - intros Hrun.
    apply bind_Return_inv in Hrun as (? & h1 & _ & Hrun).
    apply bind_Return_inv in Hrun as (fs & h2 & _ & Hrun).
    apply bind_Return_inv in Hrun as (cols & h3 & _ & Hrun).
    apply bind_Return_inv in Hrun as ([] & h4 & Hset & Hrun).
    rewrite run_ret in Hrun. injection Hrun as <- <-.
    unfold set_processedMessages in Hset. injection Hset as <-. simpl.
    apply lookup_insert_eq.
Qed.

Section Conversion.
Context {lib : Protobufjs} {contract : ProtobufjsContract lib}.
Variable typeMapping : gmap string GlueType.

(** One call on a linked graph whose answer is not cached yet. *)
Lemma run_convertMessageType_S fuel N h :
  Root_resolved (root h) ->
  _processedMessages h !! N = None ->
  _convertMessageType typeMapping (S fuel) N h =
    match _detectCircularReference fuel N N h with
    | (Return _, _) =>
        match mapM (_convertField typeMapping (_convertMessageType typeMapping fuel))
                   (fields (root h) N) h with
        | (Return columns, h') =>
            (Return columns, mkHeap (root h') (<[N := columns]> (_processedMessages h')))
        | (Throw e, h') => (Throw e, h')
        | (OutOfFuel, h') => (OutOfFuel, h')
        end
    | (Throw e, _) => (Throw e, h)
    | (OutOfFuel, _) => (OutOfFuel, h)
    end.
Proof.
  intros Hg Hmiss. simpl. rewrite run_bind. unfold get_processedMessages. rewrite Hmiss.
  rewrite run_bind. pose proof (detect_heap fuel N N h Hg) as Hh.
  destruct (_detectCircularReference fuel N N h) as [[[]|e|] h1]; simpl in Hh; subst h1;
    [|done..].
  unfold Object_values_fields. rewrite !run_bind. unfold get_root. rewrite run_ret, run_bind.
  by destruct (mapM (M:=M) _ _ h) as [[cols|e|] h1].
Qed.

(** *** The graph is only read *)

Lemma convertField_root (rec : string -> M (list Column)) f h :
  (forall t h, Root_resolved (root h) -> root (rec t h).2 = root h) ->
  Field.resolved f = true ->
  Root_resolved (root h) ->
  root (_convertField typeMapping rec f h).2 = root h.
Proof.
  intros Hrec Hf Hg. rewrite run_convertField by done.
  assert (root (_convertNonRepeatedField typeMapping rec f h).2 = root h) as Hsingular.
  { unfold _convertNonRepeatedField. rewrite run_bind, run_Field_resolve by done.
    destruct (Field.resolvedType f) as [[t|e]|].
    - rewrite run_bind. specialize (Hrec t h Hg).
      by destruct (rec t h) as [[cols|e|] h1].
    - done.
    - cbv zeta. by destruct (assertKey _ _). }
  destruct (Field.repeated f); [|done].
  by destruct (_convertNonRepeatedField typeMapping rec f h) as [[c|e|] h1].
Qed.

Lemma mapM_convertField_root (rec : string -> M (list Column)) fs h :
  (forall t h, Root_resolved (root h) -> root (rec t h).2 = root h) ->
  Forall (fun f => Field.resolved f = true) fs ->
  Root_resolved (root h) ->
  root (mapM (_convertField typeMapping rec) fs h).2 = root h.
Proof.
  intros Hrec Hfs. revert h. induction Hfs as [|f fs Hf Hfs IH]; intros h Hg; [done|].
  rewrite run_mapM_cons. pose proof (convertField_root rec f h Hrec Hf Hg) as H1.
  destruct (_convertField typeMapping rec f h) as [[c|e|] h1]; simpl in H1; [|done..].
  assert (Root_resolved (root h1)) as Hg1 by (by rewrite H1).
  specialize (IH h1 Hg1). rewrite H1 in IH.
  by destruct (mapM (M:=M) _ fs h1) as [[cs|e|] h2].
Qed.

Lemma fields_Forall_resolved g N :
  Root_resolved g -> Forall (fun f => Field.resolved f = true) (fields g N).
Proof. intros Hg. apply Forall_forall. intros f Hf. by eapply fields_resolved. Qed.

Lemma convertMessageType_root fuel N h :
  Root_resolved (root h) ->
  root (_convertMessageType typeMapping fuel N h).2 = root h.
Proof.
  revert N h. induction fuel as [|fuel IH]; intros N h Hg; [done|].
  destruct (_processedMessages h !! N) as [cached|] eqn:Hhit.
  - by erewrite run_convertMessageType_cached.
  - rewrite run_convertMessageType_S by done.
    destruct (_detectCircularReference fuel N N h) as [[[]|e|] h1]; [|done..].
    pose proof (mapM_convertField_root _ (fields (root h) N) h IH
                  (fields_Forall_resolved _ N Hg) Hg) as Hmap.
    by destruct (mapM (M:=M) _ _ h) as [[cols|e|] h2].
Qed.
End Conversion.

(** ** The cache only grows *)

Lemma grows_ret {A} (a : A) : grows (mret a).
Proof. by intros h. Qed.

Lemma grows_throw {A} (e : Error) : grows (mthrow e : M A).
Proof. by intros h. Qed.

Lemma grows_out_of_fuel {A} : grows (@out_of_fuel A).
Proof. by intros h. Qed.

Lemma grows_bind {A B} (m : M A) (k : A -> M B) :
  grows m -> (forall a, grows (k a)) -> grows (m ≫= k).
Proof.
  intros Hm Hk h. rewrite run_bind. specialize (Hm h).
  destruct (m h) as [[a|e|] h1]; simpl in *; [|done..].
  etrans; [exact Hm|apply Hk].
Qed.

Lemma grows_lift_root {A} (op : Root -> Outcome A * Root) : grows (lift_root op).
Proof. intros h. unfold lift_root. by destruct (op (root h)). Qed.

Lemma grows_get_root : grows get_root.
Proof. by intros h. Qed.

Lemma grows_set_root g : grows (set_root g).
Proof. by intros h. Qed.

Lemma grows_mapM {A B} (f : A -> M B) xs : (forall x, grows (f x)) -> grows (mapM f xs).
Proof.
  intros Hf. induction xs as [|x xs IH]; [by intros h|].
  change (mapM f (x :: xs)) with (y ← f x; k ← mapM f xs; mret (y :: k)).
  apply grows_bind; [done|]. intros y. apply grows_bind; [done|]. intros ys. apply grows_ret.
Qed.

Lemma grows_for_of {A} (body : A -> M unit) xs : (forall x, grows (body x)) -> grows (for_of xs body).
Proof.
  intros Hbody. induction xs as [|x xs IH]; [by intros h|].
  simpl. apply grows_bind; [done|]. by intros _.
Qed.

Section CacheGrows.
Context {lib : Protobufjs}.
Variable typeMapping : gmap string GlueType.

Lemma grows_detect fuel cur origin : grows (_detectCircularReference fuel cur origin).
Proof.
  revert cur. induction fuel as [|fuel IH]; intros cur; [apply grows_out_of_fuel|].
  simpl. apply grows_bind; [apply grows_lift_root|]. intros _.
  apply grows_bind.
  { apply grows_bind; [apply grows_get_root|]. intros g. apply grows_ret. }
  intros fs. destruct (0 <? _)%nat; [apply grows_throw|].
  apply grows_for_of. intros f.
  destruct (Field.resolvedType f) as [[t|]|]; [apply IH|apply grows_ret..].
Qed.

Lemma grows_convertNonRepeatedField (rec : string -> M (list Column)) f :
  (forall t, grows (rec t)) -> grows (_convertNonRepeatedField typeMapping rec f).
Proof.
  intros Hrec. unfold _convertNonRepeatedField.
  apply grows_bind; [apply grows_lift_root|]. intros f'.
  destruct (Field.resolvedType f') as [[t|e]|].
  - apply grows_bind; [apply Hrec|]. intros cols. apply grows_ret.
  - apply grows_ret.
  - cbv zeta. destruct (assertKey _ _); [apply grows_ret|apply grows_throw].
Qed.

Lemma grows_convertField (rec : string -> M (list Column)) f :
  (forall t, grows (rec t)) -> grows (_convertField typeMapping rec f).
Proof.
  intros Hrec. unfold _convertField.
  apply grows_bind; [apply grows_lift_root|]. intros f'.
  destruct (Field.repeated f'); [|by apply grows_convertNonRepeatedField].
  unfold _resolveRepeatedField. apply grows_bind; [apply grows_lift_root|]. intros f''.
  apply grows_bind; [by apply grows_convertNonRepeatedField|]. intros c. apply grows_ret.
Qed.

Lemma grows_convertMessageType fuel N : grows (_convertMessageType typeMapping fuel N).
Proof.
  revert N. induction fuel as [|fuel IH]; intros N; [apply grows_out_of_fuel|].
  intros h. simpl. rewrite run_bind. unfold get_processedMessages.
  destruct (_processedMessages h !! N) as [cached|] eqn:Hhit; [done|].
  rewrite run_bind. pose proof (grows_detect fuel N N h) as H1.
  destruct (_detectCircularReference fuel N N h) as [[[]|e|] h1]; simpl in H1; [|done..].
  unfold Object_values_fields. rewrite !run_bind. unfold get_root. rewrite run_ret, run_bind.
  pose proof (grows_mapM (_convertField typeMapping (_convertMessageType typeMapping fuel))
                (fields (root h1) N) (fun f => grows_convertField _ f IH) h1) as H2.
  destruct (mapM (M:=M) _ _ h1) as [[cols|e|] h2]; simpl in H2;
    [|by etrans..].
  simpl. apply map_subseteq_spec. intros K v HK.
  assert (K <> N) as Hne by congruence.
  rewrite lookup_insert_ne by done.
  assert (_processedMessages h ⊆ _processedMessages h2) as H3 by (by etrans).
  by eapply map_subseteq_spec.
Qed.

Lemma grows_generateGlueSchema fuel protoFile messageName :
  grows (generateGlueSchema typeMapping fuel protoFile messageName).
Proof.
  unfold generateGlueSchema. apply grows_bind.
  { unfold _loadProtoFile.
    destruct (loadSync protoFile); [apply grows_set_root|apply grows_throw|apply grows_out_of_fuel]. }
  intros _. apply grows_bind; [apply grows_lift_root|]. intros _.
  apply grows_bind; [apply grows_get_root|]. intros g. apply grows_bind.
  { destruct messageName as [n|]; [|apply grows_ret].
    apply grows_bind; [|intros t; apply grows_ret].
    unfold lookupType. destruct (types g !! n); [apply grows_ret|apply grows_throw]. }
  intros [t|]; [apply grows_convertMessageType|apply grows_throw].
Qed.
End CacheGrows.

(** ** Columns that follow the declared fields *)

Lemma follows_inv g N columns :
  follows g N columns -> Forall2 (column_follows (follows g)) (fields g N) columns.
Proof. by inversion 1. Qed.

Lemma follows_names g N columns :
  follows g N columns -> map name columns = map Field.name (fields g N).
Proof.
  intros H. apply follows_inv in H.
  induction H as [|f c fs cs [Hname _] _ IH]; [done|]. simpl. by rewrite Hname, IH.
Qed.

Lemma follows_length g N columns :
  follows g N columns -> length columns = length (fields g N).
Proof. intros H. apply follows_inv in H. symmetry. by eapply Forall2_length. Qed.

Lemma cache_follows_empty g : cache_follows g ∅.
Proof. apply map_Forall_empty. Qed.

Section Follows.
Context {lib : Protobufjs} {contract : ProtobufjsContract lib}.
Variable typeMapping : gmap string GlueType.
Variable g : Root.
Hypothesis g_resolved : Root_resolved g.

Section FieldColumns.
Variable rec : string -> M (list Column).
Hypothesis rec_keeps : forall t h, same_graph g h -> same_graph g (rec t h).2.
Hypothesis rec_follows : forall t h columns h',
  same_graph g h -> rec t h = (Return columns, h') -> follows g t columns.

Lemma convertNonRepeatedField_follows f h :
  Field.resolved f = true ->
  same_graph g h ->
  same_graph g (_convertNonRepeatedField typeMapping rec f h).2 /\
  forall c h', _convertNonRepeatedField typeMapping rec f h = (Return c, h') ->
    name c = Field.name f /\
    forall t, Field.resolvedType f = Some (IsType t) ->
      exists sub, type c = glueSchema.struct sub /\ follows g t sub.
Proof using contract rec_keeps rec_follows.
  intros Hf Hh. unfold _convertNonRepeatedField.
  rewrite run_bind, run_Field_resolve by done.
  destruct (Field.resolvedType f) as [[t|e]|].
  - rewrite run_bind. pose proof (rec_keeps t h Hh) as Hkeep.
    pose proof (rec_follows t h) as Hcols.
    destruct (rec t h) as [[cols|e|] h1]; simpl in *; [|done..].
    split; [done|]. intros c h' [= <- <-]. split; [done|].
    intros t' [= <-]. exists cols. split; [done|by eapply Hcols].
  - split; [done|]. intros c h'. rewrite run_ret. intros [= <- <-]. by split.
  - cbv zeta. destruct (assertKey _ _); [|done].
    split; [done|]. intros c h'. rewrite run_ret. intros [= <- <-]. by split.
Qed.

Lemma convertField_follows f h :
  Field.resolved f = true ->
  same_graph g h ->
  same_graph g (_convertField typeMapping rec f h).2 /\
  forall c h', _convertField typeMapping rec f h = (Return c, h') ->
    column_follows (follows g) f c.
Proof using contract rec_keeps rec_follows.
  intros Hf Hh. rewrite run_convertField by done.
  destruct (convertNonRepeatedField_follows f h Hf Hh) as [Hkeep Hcol].
  destruct (Field.repeated f) eqn:Hrep.
  - destruct (_convertNonRepeatedField typeMapping rec f h) as [[c1|e|] h1];
      simpl in *; [|done..].
    split; [done|]. intros c h' [= <- <-].
    destruct (Hcol c1 h1 eq_refl) as [Hname Hsub]. split; [done|].
    intros t Ht. destruct (Hsub t Ht) as (sub & -> & Hfollows).
    rewrite Hrep. by exists sub.
  - split; [done|]. intros c h' Hrun.
    destruct (Hcol c h' Hrun) as [Hname Hsub]. split; [done|].
    intros t Ht. destruct (Hsub t Ht) as (sub & -> & Hfollows).
    rewrite Hrep. by exists sub.
Qed.

Lemma mapM_convertField_follows fs h :
  Forall (fun f => Field.resolved f = true) fs ->
  same_graph g h ->
  same_graph g (mapM (_convertField typeMapping rec) fs h).2 /\
  forall columns h', mapM (_convertField typeMapping rec) fs h = (Return columns, h') ->
    Forall2 (column_follows (follows g)) fs columns.
Proof using contract rec_keeps rec_follows.
  intros Hfs. revert h. induction Hfs as [|f fs Hf Hfs IH]; intros h Hh.
  - split; [done|]. intros cols h'. rewrite run_mapM_nil. intros [= <- <-]. constructor.
  - rewrite run_mapM_cons.
    destruct (convertField_follows f h Hf Hh) as [Hkeep Hcol].
    destruct (_convertField typeMapping rec f h) as [[c|e|] h1]; simpl in *; [|done..].
    destruct (IH h1 Hkeep) as [Hkeep' Hcols].
    destruct (mapM (M:=M) _ fs h1) as [[cs|e|] h2]; simpl in *; [|done..].
    split; [done|]. intros cols h' [= <- <-].
    constructor; [by eapply Hcol|by eapply Hcols].
Qed.
End FieldColumns.

Lemma convertMessageType_follows fuel N h :
  same_graph g h ->
  same_graph g (_convertMessageType typeMapping fuel N h).2 /\
  forall columns h', _convertMessageType typeMapping fuel N h = (Return columns, h') ->
    follows g N columns.
Proof using contract g_resolved.
  revert N h. induction fuel as [|fuel IH]; intros N h Hh; [done|].
  destruct Hh as [Hroot Hcache].
  assert (Root_resolved (root h)) as Hg by (by rewrite Hroot).
  destruct (_processedMessages h !! N) as [cached|] eqn:Hhit.
  - erewrite run_convertMessageType_cached by done. split; [done|].
    intros cols h' [= <- <-]. by apply (Hcache N).
  - rewrite run_convertMessageType_S by done.
    destruct (_detectCircularReference fuel N N h) as [[[]|e|] h1]; [|done..].
    destruct (mapM_convertField_follows (_convertMessageType typeMapping fuel)
                (fun t h Hh => proj1 (IH t h Hh))
                (fun t h cols h' Hh => proj2 (IH t h Hh) cols h')
                (fields (root h) N) h (fields_Forall_resolved _ N Hg)
                (conj Hroot Hcache)) as [Hkeep Hcols].
    destruct (mapM (M:=M) _ _ h) as [[cols|e|] h2]; simpl in *; [|done..].
    assert (follows g N cols) as Hfollows.
    { constructor. pose proof (Hcols cols h2 eq_refl) as HF. by rewrite Hroot in HF. }
    destruct Hkeep as [Hroot2 Hcache2].
    split; [|by intros ? ? [= <- <-]].
    split; [done|]. simpl. by apply map_Forall_insert_2.
Qed.
End Follows.

(** ** The entry point *)

Lemma find_Type_first nested pre t post :
  nested = (pre ++ NestedType t :: post)%list ->
  Forall (fun n => forall t', n <> NestedType t') pre ->
  find_Type nested = Some t.
Proof.
  intros -> Hpre. unfold find_Type.
  induction Hpre as [|n pre Hn Hpre IH]; [done|].
  simpl. destruct n as [t'| |]; [by destruct (Hn t')|done..].
Qed.

Lemma find_Type_none nested :
  (forall t, NestedType t ∉ nested) -> find_Type nested = None.
Proof.
  intros Hnone. unfold find_Type.
  induction nested as [|n nested IH]; [done|].
  simpl. destruct n as [t| |].
  - destruct (Hnone t). left.
  - apply IH. intros t Ht. apply (Hnone t). by right.
  - apply IH. intros t Ht. apply (Hnone t). by right.
Qed.

(** Once the loader has handed over graph [g], the call is the conversion of
    the selected type, or one of the two selection errors. *)
Lemma run_generateGlueSchema {lib : Protobufjs} typeMapping fuel protoFile messageName h g0 g :
  loadSync protoFile = Return g0 ->
  Root_resolveAll g0 = (Return tt, g) ->
  generateGlueSchema typeMapping fuel protoFile messageName h =
    let h1 := mkHeap g (_processedMessages h) in
    match messageName with
    | Some n =>
        match types g !! n with
        | Some _ => _convertMessageType typeMapping fuel n h1
        | None => (Throw (MessageNotFound n), h1)
        end
    | None =>
        match find_Type (nestedArray g) with
        | Some t => _convertMessageType typeMapping fuel t h1
        | None => (Throw NoMessageTypeFound, h1)
        end
    end.
Proof.
  intros Hload Hresolve. unfold generateGlueSchema, _loadProtoFile.
  rewrite Hload, run_bind. unfold set_root. rewrite run_bind.
  unfold lift_root at 1. simpl. rewrite Hresolve. rewrite run_bind. unfold get_root. simpl.
  rewrite run_bind. destruct messageName as [n|].
  - rewrite run_bind. unfold lookupType. by destruct (types g !! n).
  - rewrite run_ret. by destruct (find_Type (nestedArray g)).
Qed.

(** The convenience function starts from an empty cache, so its columns
    always follow the fields of the graph it loaded. *)
Lemma convertProtoToGlueSchema_follows
    {lib : Protobufjs} {contract : ProtobufjsContract lib}
    fuel protoFile N config g0 g columns :
  loadSync protoFile = Return g0 ->
  Root_resolveAll g0 = (Return tt, g) ->
  Root_resolved g ->
  convertProtoToGlueSchema fuel protoFile (Some N) config = Return columns ->
  follows g N columns.
Proof.
  intros Hload Hresolve Hg. unfold convertProtoToGlueSchema.
  rewrite (run_generateGlueSchema _ _ _ _ _ g0 g) by done. simpl.
  destruct (types g !! N); [|done].
  destruct (convertMessageType_follows (constructor_typeMapping config) g Hg fuel N
              (mkHeap g ∅) (conj eq_refl (cache_follows_empty g))) as [_ Hcols].
  destruct (_convertMessageType _ fuel N (mkHeap g ∅)) as [[cols|e|] h'] eqn:Hrun; [|done..].
  simpl. intros [= <-]. by eapply Hcols.
Qed.

(** ** Every write to the cache lands on a fresh key *)

Section NewEntries.
Context {lib : Protobufjs} {contract : ProtobufjsContract lib}.
Variable typeMapping : gmap string GlueType.

(** Converting a field changes the heap only through the nested message. *)
Lemma convertField_heap (rec : string -> M (list Column)) f h :
  Field.resolved f = true ->
  (_convertField typeMapping rec f h).2 =
    match Field.resolvedType f with
    | Some (IsType t) => (rec t h).2
    | _ => h
    end.
Proof.
  intros Hres. rewrite run_convertField by done.
  assert ((_convertNonRepeatedField typeMapping rec f h).2 =
          match Field.resolvedType f with
          | Some (IsType t) => (rec t h).2
          | _ => h
          end) as Hsingular.
  { unfold _convertNonRepeatedField. rewrite run_bind, run_Field_resolve by done.
    destruct (Field.resolvedType f) as [[t|e]|].
    - rewrite run_bind. by destruct (rec t h) as [[cols|e|] h1].
    - done.
    - cbv zeta. by destruct (assertKey _ _). }
  destruct (Field.repeated f); [|done]. rewrite <- Hsingular.
  by destruct (_convertNonRepeatedField typeMapping rec f h) as [[c|e|] h1].
Qed.

Section Fields.
Variable rec : string -> M (list Column).
Hypothesis rec_root : forall t h, Root_resolved (root h) -> root (rec t h).2 = root h.
Hypothesis rec_adds : forall t h K,
  Root_resolved (root h) ->
  _processedMessages h !! K = None ->
  is_Some (_processedMessages (rec t h).2 !! K) ->
  rtc (contains (root h)) t K.

(** A key that appears while the fields [fs] of [T] are converted is
    reachable from the type of one of them. *)
Lemma mapM_convertField_adds T fs h K :
  Root_resolved (root h) ->
  (forall f, f ∈ fs -> f ∈ fields (root h) T) ->
  _processedMessages h !! K = None ->
  is_Some (_processedMessages (mapM (_convertField typeMapping rec) fs h).2 !! K) ->
  exists t, contains (root h) T t /\ rtc (contains (root h)) t K.
Proof using contract rec_root rec_adds.
  revert h. induction fs as [|f fs IH]; intros h Hg Hsub Hnone Hsome.
  { rewrite run_mapM_nil in Hsome. simpl in Hsome. rewrite Hnone in Hsome.
    by destruct Hsome. }
  assert (f ∈ fields (root h) T) as Hf by (apply Hsub; left).
  assert (Field.resolved f = true) as Hres by (by eapply fields_resolved).
  pose proof (convertField_heap rec f h Hres) as Hheap.
  pose proof (convertField_root typeMapping rec f h rec_root Hres Hg) as Hroot.
  rewrite run_mapM_cons in Hsome.
  destruct (_convertField typeMapping rec f h) as [[c|e|] h1]; simpl in Hheap, Hroot.
  - destruct (_processedMessages h1 !! K) as [v|] eqn:HK.
    + destruct (Field.resolvedType f) as [[t|e]|] eqn:Hty;
        [|subst h1; congruence..].
      exists t. split.
      * apply Exists_exists. by exists f.
      * apply rec_adds; [done..|]. rewrite <- Hheap. by rewrite HK.
    + assert (is_Some (_processedMessages
                         (mapM (_convertField typeMapping rec) fs h1).2 !! K)) as Hrest.
      { by destruct (mapM (M:=M) _ fs h1) as [[cs|e|] h2]. }
      rewrite <- Hroot. apply IH; [by rewrite Hroot| |done..].
      intros f' Hf'. rewrite Hroot. apply Hsub. by right.
  - simpl in Hsome. destruct (Field.resolvedType f) as [[t|e']|] eqn:Hty;
      [|subst h1; rewrite Hnone in Hsome; by destruct Hsome..].
    exists t. split.
    + apply Exists_exists. by exists f.
    + apply rec_adds; [done..|]. by rewrite <- Hheap.
  - simpl in Hsome. destruct (Field.resolvedType f) as [[t|e']|] eqn:Hty;
      [|subst h1; rewrite Hnone in Hsome; by destruct Hsome..].
    exists t. split.
    + apply Exists_exists. by exists f.
    + apply rec_adds; [done..|]. by rewrite <- Hheap.
Qed.
End Fields.

(** A key that appears during the conversion of [T] is [T] or a type
    reachable from it. *)
Lemma convertMessageType_adds fuel T h K :
  Root_resolved (root h) ->
  _processedMessages h !! K = None ->
  is_Some (_processedMessages (_convertMessageType typeMapping fuel T h).2 !! K) ->
  rtc (contains (root h)) T K.
Proof.
  revert T h K. induction fuel as [|fuel IH]; intros T h K Hg Hnone Hsome.
  { simpl in Hsome. rewrite Hnone in Hsome. by destruct Hsome. }
  destruct (_processedMessages h !! T) as [cached|] eqn:Hhit.
  { erewrite run_convertMessageType_cached in Hsome by done. simpl in Hsome.
    rewrite Hnone in Hsome. by destruct Hsome. }
  rewrite run_convertMessageType_S in Hsome by done.
  destruct (_detectCircularReference fuel T T h) as [[[]|e|] h0];
    [|simpl in Hsome; rewrite Hnone in Hsome; by destruct Hsome..].
  pose proof (mapM_convertField_adds (_convertMessageType typeMapping fuel)
                (fun t h1 Hg1 => convertMessageType_root typeMapping fuel t h1 Hg1)
                IH T (fields (root h) T) h K Hg (fun f Hf => Hf) Hnone) as Hfields.
  destruct (mapM (M:=M) _ _ h) as [[cols|e|] h2]; simpl in Hsome, Hfields.
  - destruct (decide (K = T)) as [->|Hne]; [done|].
    rewrite lookup_insert_ne in Hsome by done.
    destruct (Hfields Hsome) as (t & Hstep & Hrest). by eapply rtc_l.
  - destruct (Hfields Hsome) as (t & Hstep & Hrest). by eapply rtc_l.
  - destruct (Hfields Hsome) as (t & Hstep & Hrest). by eapply rtc_l.
Qed.

(** When the columns of [N] are stored, [N] is not in the cache yet: the
    write creates the entry, it does not replace one. *)
Lemma convertMessageType_writes_fresh fuel N h columns h2 :
  Root_resolved (root h) ->
  _processedMessages h !! N = None ->
  (_detectCircularReference fuel N N h).1 = Return tt ->
  mapM (_convertField typeMapping (_convertMessageType typeMapping fuel))
       (fields (root h) N) h = (Return columns, h2) ->
  _processedMessages h2 !! N = None.
Proof.
  intros Hg Hnone Hdetect Hmap.
  destruct (_processedMessages h2 !! N) as [v|] eqn:Hlate; [exfalso|done].
  destruct (mapM_convertField_adds (_convertMessageType typeMapping fuel)
              (fun t h1 Hg1 => convertMessageType_root typeMapping fuel t h1 Hg1)
              (fun t h1 K Hg1 => convertMessageType_adds fuel t h1 K Hg1)
              N (fields (root h) N) h N Hg (fun f Hf => Hf) Hnone)
    as (t & Hstep & Hrest).
  { rewrite Hmap. simpl. by rewrite Hlate. }
  destruct (_detectCircularReference fuel N N h) as [[[]|e|] h0] eqn:Hrun; [|done..].
  apply (detect_Return_no_path fuel N N h h0 Hg Hrun).
  eapply tc_rtc_r; [by apply tc_once|done].
Qed.
End NewEntries.

(** ** Fuel

    [OutOfFuel] is not an outcome of the program: it marks a run that was
    cut short.  A run that ends within its fuel ends the same way with any
    larger amount. *)

Lemma settles_refl {A} (m : M A) : settles m m.
Proof. by intros h r h'. Qed.

Lemma settles_bind {A B} (m m' : M A) (k k' : A -> M B) :
  settles m m' -> (forall a, settles (k a) (k' a)) -> settles (m ≫= k) (m' ≫= k').
Proof.
  intros Hm Hk h r h'. rewrite !run_bind.
  destruct (m h) as [[a|e|] h1] eqn:E.
  - rewrite (Hm h _ h1 E) by done. apply Hk.
  - rewrite (Hm h _ h1 E) by done. done.
  - by intros [= <- <-].
Qed.

Lemma settles_mapM {A B} (f f' : A -> M B) xs :
  (forall x, settles (f x) (f' x)) -> settles (mapM f xs) (mapM f' xs).
Proof.
  intros Hf. induction xs as [|x xs IH]; [apply settles_refl|].
  change (mapM f (x :: xs)) with (y ← f x; k ← mapM f xs; mret (y :: k)).
  change (mapM f' (x :: xs)) with (y ← f' x; k ← mapM f' xs; mret (y :: k)).
  apply settles_bind; [done|]. intros y. apply settles_bind; [done|].
  intros ys. apply settles_refl.
Qed.

Lemma settles_for_of {A} (body body' : A -> M unit) xs :
  (forall x, settles (body x) (body' x)) -> settles (for_of xs body) (for_of xs body').
Proof.
  intros Hbody. induction xs as [|x xs IH]; [apply settles_refl|].
  simpl. apply settles_bind; [done|]. by intros _.
Qed.

Section Fuel.
Context {lib : Protobufjs}.
Variable typeMapping : gmap string GlueType.

Lemma detect_more_fuel fuel fuel' cur origin :
  fuel <= fuel' ->
  settles (_detectCircularReference fuel cur origin)
          (_detectCircularReference fuel' cur origin).
Proof.
  revert fuel' cur. induction fuel as [|fuel IH]; intros fuel' cur Hle.
  { intros h r h' [= <- <-]. done. }
  destruct fuel' as [|fuel']; [lia|]. simpl.
  apply settles_bind; [apply settles_refl|]. intros _.
  apply settles_bind; [apply settles_refl|]. intros fs.
  destruct (0 <? _)%nat; [apply settles_refl|].
  apply settles_for_of. intros f.
  destruct (Field.resolvedType f) as [[t|]|]; [|apply settles_refl..].
  apply IH. lia.
Qed.

Lemma convertField_settles (rec rec' : string -> M (list Column)) f :
  (forall t, settles (rec t) (rec' t)) ->
  settles (_convertField typeMapping rec f) (_convertField typeMapping rec' f).
Proof.
  intros Hrec.
  assert (forall f0, settles (_convertNonRepeatedField typeMapping rec f0)
                             (_convertNonRepeatedField typeMapping rec' f0)) as Hsingular.
  { intros f0. unfold _convertNonRepeatedField.
    apply settles_bind; [apply settles_refl|]. intros f1.
    destruct (Field.resolvedType f1) as [[t|e]|]; [|apply settles_refl..].
    apply settles_bind; [apply Hrec|]. intros cols. apply settles_refl. }
  unfold _convertField. apply settles_bind; [apply settles_refl|]. intros f1.
  destruct (Field.repeated f1); [|apply Hsingular].
  unfold _resolveRepeatedField. apply settles_bind; [apply settles_refl|]. intros f2.
  apply settles_bind; [apply Hsingular|]. intros c. apply settles_refl.
Qed.

Lemma convertMessageType_more_fuel fuel fuel' N :
  fuel <= fuel' ->
  settles (_convertMessageType typeMapping fuel N) (_convertMessageType typeMapping fuel' N).
Proof.
  revert fuel' N. induction fuel as [|fuel IH]; intros fuel' N Hle.
  { intros h r h' [= <- <-]. done. }
  destruct fuel' as [|fuel']; [lia|]. simpl.
  apply settles_bind; [apply settles_refl|]. intros cache.
  destruct (cache !! N); [apply settles_refl|].
  apply settles_bind; [apply detect_more_fuel; lia|]. intros _.
  apply settles_bind; [apply settles_refl|]. intros fs.
  apply settles_bind; [|intros cols; apply settles_refl].
  apply settles_mapM. intros f. apply convertField_settles. intros t. apply IH. lia.
Qed.

Lemma generateGlueSchema_more_fuel fuel fuel' protoFile messageName :
  fuel <= fuel' ->
  settles (generateGlueSchema typeMapping fuel protoFile messageName)
          (generateGlueSchema typeMapping fuel' protoFile messageName).
Proof.
  intros Hle. unfold generateGlueSchema.
  apply settles_bind; [apply settles_refl|]. intros _.
  apply settles_bind; [apply settles_refl|]. intros _.
  apply settles_bind; [apply settles_refl|]. intros g.
  apply settles_bind; [apply settles_refl|]. intros [t|]; [|apply settles_refl].
  by apply convertMessageType_more_fuel.
Qed.
End Fuel.

(** ** Graphs without containment cycles *)

Lemma nesting_ends_search_ends g origin d cur :
  nesting_ends g d cur = true -> search_ends g origin d cur = true.
Proof.
  revert cur. induction d as [|d IH]; intros cur; [done|]. simpl.
  intros Hall. apply orb_true_intro. right.
  rewrite forallb_forall in *. intros f Hf. specialize (Hall f Hf).
  destruct (Field.resolvedType f) as [[t|]|]; [by apply IH|done..].
Qed.

Section Termination.
Context {lib : Protobufjs} {contract : ProtobufjsContract lib}.
Variable typeMapping : gmap string GlueType.

(** On such a graph the conversion comes to an end: it returns columns or
    throws, given fuel beyond the nesting depth. *)
Lemma convertMessageType_terminates d fuel N h :
  Root_resolved (root h) ->
  nesting_ends (root h) d N = true ->
  d < fuel ->
  (_convertMessageType typeMapping fuel N h).1 <> OutOfFuel.
Proof.
  revert fuel N h. induction d as [|d IH]; intros fuel N h Hg Hends Hfuel; [done|].
  destruct fuel as [|fuel]; [lia|].
  destruct (_processedMessages h !! N) as [cached|] eqn:Hhit.
  { by erewrite run_convertMessageType_cached. }
  rewrite run_convertMessageType_S by done.
  destruct (detect_total (S d) fuel N N h Hg
              (nesting_ends_search_ends _ N _ _ Hends) ltac:(lia)) as [-> | ->]; [|done].
  simpl in Hends. rewrite forallb_forall in Hends.
  assert (forall fs h0,
            root h0 = root h ->
            (forall f, In f fs -> In f (fields (root h) N)) ->
            (mapM (_convertField typeMapping (_convertMessageType typeMapping fuel)) fs h0).1
              <> OutOfFuel) as Hmap.
  { induction fs as [|f fs IHfs]; intros h0 Hroot Hsub; [done|].
    rewrite run_mapM_cons.
    assert (In f (fields (root h) N)) as Hf by (apply Hsub; by left).
    assert (Field.resolved f = true) as Hres.
    { eapply fields_resolved; [exact Hg|]. apply list_elem_of_In. exact Hf. }
    assert (Root_resolved (root h0)) as Hg0 by (by rewrite Hroot).
    pose proof (convertField_root typeMapping (_convertMessageType typeMapping fuel) f h0
                  (fun t h1 Hg1 => convertMessageType_root typeMapping fuel t h1 Hg1)
                  Hres Hg0) as Hroot1.
    assert ((_convertField typeMapping (_convertMessageType typeMapping fuel) f h0).1
              <> OutOfFuel) as Hfield.
    { rewrite run_convertField by done.
      assert ((_convertNonRepeatedField typeMapping
                 (_convertMessageType typeMapping fuel) f h0).1 <> OutOfFuel) as Hsingular.
      { unfold _convertNonRepeatedField. rewrite run_bind, run_Field_resolve by done.
        pose proof (Hends f Hf) as Hnested.
        destruct (Field.resolvedType f) as [[t|e]|].
        - rewrite run_bind.
          assert ((_convertMessageType typeMapping fuel t h0).1 <> OutOfFuel) as Hrec.
          { apply IH; [done| by rewrite Hroot | lia]. }
          by destruct (_convertMessageType typeMapping fuel t h0) as [[cols|e|] h1].
        - done.
        - cbv zeta. by destruct (assertKey _ _). }
      destruct (Field.repeated f); [|done].
      by destruct (_convertNonRepeatedField _ _ f h0) as [[c|e|] h1]. }
    destruct (_convertField typeMapping (_convertMessageType typeMapping fuel) f h0)
      as [[c|e|] h1]; simpl in *; [|done..].
    assert ((mapM (_convertField typeMapping (_convertMessageType typeMapping fuel)) fs h1).1
              <> OutOfFuel) as Hrest.
    { apply IHfs; [by rewrite Hroot1|]. intros f' Hf'. apply Hsub. by right. }
    by destruct (mapM (M:=M) _ fs h1) as [[cs|e|] h2]. }
  specialize (Hmap (fields (root h) N) h eq_refl (fun f Hf => Hf)).
  by destruct (mapM (M:=M) _ _ h) as [[cols|e|] h2].
Qed.
End Termination.

Lemma convertible_nesting_ends typeMapping g d cur :
  convertible typeMapping g d cur = true -> nesting_ends g d cur = true.
Proof.
  revert cur. induction d as [|d IH]; intros cur; [done|]. simpl.
  rewrite !forallb_forall. intros Hall f Hf. specialize (Hall f Hf).
  destruct (Field.resolvedType f) as [[t|]|]; [by apply IH|done..].
Qed.

(** Along a chain of containment the remaining depth goes down. *)
Lemma nesting_ends_step g d a b :
  nesting_ends g d a = true -> tc (contains g) a b ->
  exists d', d' < d /\ nesting_ends g d' b = true.
Proof.
  intros Hends Hpath. revert d Hends.
  induction Hpath as [a b Hstep|a c b Hstep Hpath IH]; intros d Hends.
  - destruct d as [|d]; [done|]. simpl in Hends. rewrite forallb_forall in Hends.
    apply Exists_exists in Hstep as (f & Hf & Hty).
    apply list_elem_of_In in Hf. specialize (Hends f Hf). rewrite Hty in Hends.
    exists d. split; [lia|done].
  - destruct d as [|d]; [done|]. simpl in Hends. rewrite forallb_forall in Hends.
    apply Exists_exists in Hstep as (f & Hf & Hty).
    apply list_elem_of_In in Hf. specialize (Hends f Hf). rewrite Hty in Hends.
    destruct (IH d Hends) as (d' & Hlt & Hends'). exists d'. split; [lia|done].
Qed.

Lemma nesting_ends_acyclic g d a :
  nesting_ends g d a = true -> ~ tc (contains g) a a.
Proof.
  revert a. induction (lt_wf d) as [d _ IH]. intros a Hends Hloop.
  destruct (nesting_ends_step g d a a Hends Hloop) as (d' & Hlt & Hends').
  by apply (IH d' Hlt a Hends').
Qed.

Section Success.
Context {lib : Protobufjs} {contract : ProtobufjsContract lib}.
Variable typeMapping : gmap string GlueType.

(** A search that throws found a way back to [origin]. *)
Lemma detect_Throw_path fuel cur origin h e h' :
  Root_resolved (root h) ->
  _detectCircularReference fuel cur origin h = (Throw e, h') ->
  tc (contains (root h)) cur origin.
Proof.
  intros Hg. revert cur h'. induction fuel as [|fuel IH]; intros cur h'; [done|].
  rewrite run_detect_S by done.
  destruct (refers_to (root h) origin cur) eqn:Hdirect.
  { intros _. apply tc_once. by apply refers_to_contains. }
  assert (forall f, f ∈ fields (root h) cur -> f ∈ fields (root h) cur) as Hsub by done.
  revert Hsub. generalize (fields (root h) cur) at 1 3. intros fs.
  induction fs as [|f fs IHfs]; intros Hsub; [done|].
  rewrite run_for_of_cons. cbv beta.
  assert (f ∈ fields (root h) cur) as Hf by (apply Hsub; left).
  destruct (Field.resolvedType f) as [[t|]|] eqn:Hty.
  - pose proof (detect_heap fuel t origin h Hg) as Hheap.
    destruct (_detectCircularReference fuel t origin h) as [[[]|e'|] h1] eqn:Hcall;
      simpl in Hheap; subst h1.
    + apply IHfs. intros f' Hf'. apply Hsub. by right.
    + intros [= -> <-]. apply tc_l with t; [|by eapply IH].
      apply Exists_exists. by exists f.
    + done.
  - rewrite run_ret. apply IHfs. intros f' Hf'. apply Hsub. by right.
  - rewrite run_ret. apply IHfs. intros f' Hf'. apply Hsub. by right.
Qed.

(** On a graph without containment cycles below [N] whose scalar tags are
    all in the mapping, the conversion of [N] returns columns, given fuel
    beyond the nesting depth. *)
Lemma convertMessageType_returns d fuel N h :
  Root_resolved (root h) ->
  convertible typeMapping (root h) d N = true ->
  d < fuel ->
  exists columns h', _convertMessageType typeMapping fuel N h = (Return columns, h').
Proof.
  revert fuel N h. induction d as [|d IH]; intros fuel N h Hg Hconv Hfuel; [done|].
  destruct fuel as [|fuel]; [lia|].
  destruct (_processedMessages h !! N) as [cached|] eqn:Hhit.
  { erewrite run_convertMessageType_cached by done. by eauto. }
  rewrite run_convertMessageType_S by done.
  pose proof (convertible_nesting_ends _ _ _ _ Hconv) as Hends.
  destruct (detect_total (S d) fuel N N h Hg
              (nesting_ends_search_ends _ N _ _ Hends) ltac:(lia)) as [-> | Hthrow].
  2:{ destruct (nesting_ends_acyclic _ _ _ Hends).
      by eapply detect_Throw_path. }
  simpl in Hconv. rewrite forallb_forall in Hconv.
  assert (forall fs h0,
            root h0 = root h ->
            (forall f, In f fs -> In f (fields (root h) N)) ->
            exists cols h1,
              mapM (_convertField typeMapping (_convertMessageType typeMapping fuel)) fs h0
                = (Return cols, h1)) as Hmap.
  { induction fs as [|f fs IHfs]; intros h0 Hroot Hsub; [by eexists _, _|].
    rewrite run_mapM_cons.
    assert (In f (fields (root h) N)) as Hf by (apply Hsub; by left).
    assert (Field.resolved f = true) as Hres.
    { eapply fields_resolved; [exact Hg|]. apply list_elem_of_In. exact Hf. }
    assert (Root_resolved (root h0)) as Hg0 by (by rewrite Hroot).
    pose proof (convertField_root typeMapping (_convertMessageType typeMapping fuel) f h0
                  (fun t h1 Hg1 => convertMessageType_root typeMapping fuel t h1 Hg1)
                  Hres Hg0) as Hroot1.
    assert (exists c h1,
              _convertField typeMapping (_convertMessageType typeMapping fuel) f h0
                = (Return c, h1)) as (c & h1 & Hfield).
    { rewrite run_convertField by done.
      assert (exists c h1,
                _convertNonRepeatedField typeMapping
                  (_convertMessageType typeMapping fuel) f h0 = (Return c, h1))
        as (c & h1 & Hsingular).
      { pose proof (Hconv f Hf) as Hnested.
        destruct (Field.resolvedType f) as [[t|e]|] eqn:Hty.
        - rewrite (run_convertNonRepeatedField_message _ _ f t h0 Hres Hty).
          destruct (IH fuel t h0 Hg0 ltac:(by rewrite Hroot) ltac:(lia))
            as (cols & h1 & ->).
          by eexists _, _.
        - rewrite (run_convertNonRepeatedField_enum _ _ f e h0 Hres Hty). by eexists _, _.
        - rewrite (run_convertNonRepeatedField_tag _ _ f h0 Hres Hty), Hnested.
          by eexists _, _. }
      rewrite Hsingular. destruct (Field.repeated f); by eexists _, _. }
    rewrite Hfield in Hroot1. simpl in Hroot1. rewrite Hfield.
    destruct (IHfs h1 ltac:(by rewrite Hroot1) ltac:(intros f' Hf'; apply Hsub; by right))
      as (cs & h2 & ->).
    by eexists _, _. }
  destruct (Hmap (fields (root h) N) h eq_refl (fun f Hf => Hf)) as (cols & h2 & ->).
  by eexists _, _.
Qed.
End Success.

(** ** The search that finds the requested type *)

Section Finds.
Context {lib : Protobufjs} {contract : ProtobufjsContract lib}.

Lemma search_finds_mono g origin d d' cur :
  search_finds g origin d cur = true -> d <= d' -> search_finds g origin d' cur = true.
Proof.
  revert d' cur. induction d as [|d IH]; intros d' cur Hfinds Hle; [done|].
  destruct d' as [|d']; [lia|]. simpl in *.
  apply orb_true_iff in Hfinds as [->|Hfirst]; [done|]. apply orb_true_iff. right.
  induction (fields g cur) as [|f fs IHfs]; [done|]. simpl in *.
  destruct (Field.resolvedType f) as [[t|en]|]; [|by apply IHfs..].
  apply orb_true_iff in Hfirst as [Hhere|Hlater]; apply orb_true_iff.
  - left. apply IH; [done|lia].
  - right. apply andb_true_iff in Hlater as [Hends Hrest]. apply andb_true_iff.
    split; [|by apply IHfs]. apply (search_ends_mono g origin d); [lia|done].
Qed.

(** A search that finds the requested type makes the detection throw. *)
Lemma detect_finds d fuel cur origin h :
  Root_resolved (root h) ->
  search_finds (root h) origin d cur = true ->
  d <= fuel ->
  _detectCircularReference fuel cur origin h = (Throw (CircularReference origin), h).
Proof.
  intros Hg. revert fuel cur.
  induction d as [|d IH]; intros fuel cur Hfinds Hle; [done|].
  destruct fuel as [|fuel]; [lia|]. rewrite run_detect_S by done. simpl in Hfinds.
  destruct (refers_to (root h) origin cur); [done|]. simpl in Hfinds.
  induction (fields (root h) cur) as [|f fs IHfs]; [done|].
  rewrite run_for_of_cons. cbv beta. simpl in Hfinds.
  destruct (Field.resolvedType f) as [[t|en]|]; [|by apply IHfs..].
  apply orb_true_iff in Hfinds as [Hhere|Hlater].
  - by rewrite (IH fuel t Hhere ltac:(lia)).
  - apply andb_true_iff in Hlater as [Hends Hrest].
    destruct (detect_total d fuel t origin h Hg Hends ltac:(lia)) as [-> | ->];
      [by apply IHfs|done].
Qed.

(** A detection that returns has searched all there was to search. *)
Lemma detect_Return_search_ends fuel cur origin h h' :
  Root_resolved (root h) ->
  _detectCircularReference fuel cur origin h = (Return tt, h') ->
  search_ends (root h) origin fuel cur = true.
Proof.
  intros Hg. revert cur h'. induction fuel as [|fuel IH]; intros cur h'; [done|].
  rewrite run_detect_S by done. simpl.
  destruct (refers_to (root h) origin cur); [done|]. simpl.
  induction (fields (root h) cur) as [|f fs IHfs]; [done|].
  rewrite run_for_of_cons. cbv beta. simpl.
  destruct (Field.resolvedType f) as [[t|en]|]; [|by apply IHfs..].
  pose proof (detect_heap fuel t origin h Hg) as Hheap.
  destruct (_detectCircularReference fuel t origin h) as [[[]|e|] h1] eqn:Hrun; [|done..].
  simpl in Hheap. subst h1. intros Hrest.
  by rewrite (IH t h Hrun), (IHfs Hrest).
Qed.

(** And a detection that throws has found the requested type that way: the
    search that finds is the only way to the error. *)
Lemma detect_Throw_search_finds fuel cur origin h e h' :
  Root_resolved (root h) ->
  _detectCircularReference fuel cur origin h = (Throw e, h') ->
  search_finds (root h) origin fuel cur = true.
Proof.
  intros Hg. revert cur e h'. induction fuel as [|fuel IH]; intros cur e h'; [done|].
  rewrite run_detect_S by done. simpl.
  destruct (refers_to (root h) origin cur); [done|]. simpl.
  induction (fields (root h) cur) as [|f fs IHfs]; [done|].
  rewrite run_for_of_cons. cbv beta. simpl.
  destruct (Field.resolvedType f) as [[t|en]|]; [|by apply IHfs..].
  pose proof (detect_heap fuel t origin h Hg) as Hheap.
  destruct (_detectCircularReference fuel t origin h) as [[[]|e1|] h1] eqn:Hrun; [| |done].
  - simpl in Hheap. subst h1. intros Hrest.
    rewrite (detect_Return_search_ends fuel t origin h h Hg Hrun), (IHfs Hrest).
    by rewrite orb_true_r.
  - intros _. by rewrite (IH t e1 h1 Hrun).
Qed.

(** A bounded search on a cycle through the requested type finds it. *)
Lemma search_ends_finds g d cur origin :
  Root_resolved g ->
  tc (contains g) cur origin ->
  search_ends g origin d cur = true ->
  search_finds g origin d cur = true.
Proof.
  intros Hg Hpath Hends. set (h := mkHeap g ∅).
  destruct (detect_total d d cur origin h Hg Hends ltac:(lia)) as [Hret | Hthrow].
  - by destruct (detect_Return_no_path d cur origin h h Hg Hret).
  - by apply (detect_Throw_search_finds d cur origin h _ h Hg Hthrow).
Qed.

End Finds.

Ltac by_computation := apply (bool_decide_unpack _); vm_compute; exact I.

(** * Main results *)

(** ** C1: circular references through the requested type *)

(** C1, as amended.  When the requested type is not in the cache yet and
    the search for it gets to a type that has a field typed as the requested
    type (the type itself has such a field, or, with the message-typed
    fields followed in declaration order, the search below one of them gets
    to such a type and the search below each one before it ends),
    [_convertMessageType] throws [CircularReference] naming the requested
    type, whichever type carries the back-edge, before any column is built:
    the heap, cache included, is as it was.  The search gets there only if
    the requested type is reachable from itself ([detect_Throw_path]), it is
    the only way to the error ([detect_Throw_search_finds]), and it gets
    there whenever the requested type is reachable from itself and no chain
    of message-typed fields runs on for ever ([search_ends_finds]). *)
Theorem convertMessageType_circular_reference
    {lib : Protobufjs} {contract : ProtobufjsContract lib}
    (typeMapping : gmap string GlueType) (d fuel : nat) (origin : string) (h : Heap) :
  Root_resolved (root h) ->
  _processedMessages h !! origin = None ->
  search_finds (root h) origin d origin = true ->
  d < fuel ->
  _convertMessageType typeMapping fuel origin h = (Throw (CircularReference origin), h).
Proof.
  intros Hg Hmiss Hfinds Hfuel. destruct fuel as [|fuel]; [lia|].
  rewrite run_convertMessageType_S by done.
  by rewrite (detect_finds d fuel origin origin h Hg Hfinds ltac:(lia)).
Qed.

(** [Order] is reachable from itself through [Customer], the first field of
    [Order]; behind it, [Audit] and [Entry] hold each other, so that no
    bound holds for every chain from [Order]. *)
Lemma convertMessageType_circular_reference_witness :
  let h := constructor_heap Examples.back_edge_before_cycle in
  Root_resolved (root h) /\
  _processedMessages h !! ".Order" = None /\
  search_finds (root h) ".Order" 2 ".Order" = true /\
  2 < 3 /\
  _convertMessageType (lib := Examples.protobufjs) DEFAULT_TYPE_MAPPING 3 ".Order" h =
    (Throw (CircularReference ".Order"), h).
Proof.
  assert (Root_resolved Examples.back_edge_before_cycle) as Hg by by_computation.
  assert (search_finds Examples.back_edge_before_cycle ".Order" 2 ".Order" = true)
    as Hfinds by (vm_compute; reflexivity).
  assert (2 < 3) as Hfuel by lia.
  exact (conj Hg (conj eq_refl (conj Hfinds (conj Hfuel
           (convertMessageType_circular_reference (lib := Examples.protobufjs)
              DEFAULT_TYPE_MAPPING 2 3 ".Order"
              (constructor_heap Examples.back_edge_before_cycle)
              Hg eq_refl Hfinds Hfuel))))).
Defined.

(** C1 as stated fails: a converter that has converted [.CircularMessage]
    from one schema answers from its cache when the type of that name in a
    second schema refers to itself. *)
Lemma convertMessageType_circular_reference_counterexample :
  let convert := generateGlueSchema (lib := Examples.protobufjs) DEFAULT_TYPE_MAPPING 3 in
  let h1 := (convert "plain.proto" (Some ".CircularMessage")
               (constructor_heap no_graph)).2 in
  let h2 := (convert "test-direct-circular-mock.proto" (Some ".CircularMessage") h1).2 in
  root h2 = Examples.direct_circular /\
  contains (root h2) ".CircularMessage" ".CircularMessage" /\
  _convertMessageType (lib := Examples.protobufjs) DEFAULT_TYPE_MAPPING 3
    ".CircularMessage" h2 = (Return [mkColumn "name" glueSchema.STRING], h2).
Proof.
  split; [|split]; [vm_compute; reflexivity | by_computation | vm_compute; reflexivity].
Qed.

(** ** C2: cycles that bypass the requested type *)

(** C2 says that [_convertMessageType] ends on every finite graph, also
    when a containment cycle is reachable from the requested type without
    passing through it.  The code does not: requesting [.A] where [.B] and
    [.C] refer to each other, the search for a field typed [.A] goes round
    [.B] and [.C], and no amount of fuel lets the call return or throw. *)
Theorem convertMessageType_side_cycle_diverges (fuel : nat) :
  (_convertMessageType (lib := Examples.protobufjs) DEFAULT_TYPE_MAPPING fuel ".A"
     (constructor_heap Examples.side_cycle)).1 = OutOfFuel /\
  (generateGlueSchema (lib := Examples.protobufjs) DEFAULT_TYPE_MAPPING fuel
     "side-cycle.proto" (Some ".A") (constructor_heap no_graph)).1 = OutOfFuel.
Proof.
  set (h := constructor_heap Examples.side_cycle).
  assert (Root_resolved (root h)) as Hg by by_computation.
  assert (forall n,
            _detectCircularReference (lib := Examples.protobufjs) n ".B" ".A" h = (OutOfFuel, h) /\
            _detectCircularReference (lib := Examples.protobufjs) n ".C" ".A" h = (OutOfFuel, h))
    as Hround.
  { induction n as [|n [HB HC]]; [done|].
    rewrite !run_detect_S by done.
    change (refers_to (root h) ".A" ".B") with false.
    change (refers_to (root h) ".A" ".C") with false.
    change (fields (root h) ".B") with [message_field "c" ".C"].
    change (fields (root h) ".C") with [message_field "b" ".B"].
    rewrite !run_for_of_cons. unfold message_field. cbn [Field.resolvedType].
    by rewrite HC, HB. }
  assert ((_convertMessageType (lib := Examples.protobufjs) DEFAULT_TYPE_MAPPING fuel ".A"
             h).1 = OutOfFuel) as Hconvert.
  { destruct fuel as [|fuel]; [done|].
    rewrite run_convertMessageType_S by done.
    destruct fuel as [|fuel]; [done|].
    rewrite run_detect_S by done.
    change (refers_to (root h) ".A" ".A") with false.
    change (fields (root h) ".A") with [message_field "b" ".B"].
    rewrite run_for_of_cons. unfold message_field. cbn [Field.resolvedType].
    by rewrite (proj1 (Hround fuel)). }
  split; [done|].
  by rewrite (run_generateGlueSchema (lib := Examples.protobufjs) DEFAULT_TYPE_MAPPING fuel
                "side-cycle.proto" (Some ".A") (constructor_heap no_graph)
                Examples.side_cycle Examples.side_cycle eq_refl eq_refl).
Qed.

(** The same search hides a cycle through the requested type: [Order] is
    reachable from itself, but the fields of [Order] are searched in order
    and the first one never comes back. *)
Lemma convertMessageType_back_edge_behind_cycle_diverges :
  tc (contains Examples.back_edge_behind_cycle) ".Order" ".Order" /\
  forall fuel,
    (_convertMessageType (lib := Examples.protobufjs) DEFAULT_TYPE_MAPPING fuel ".Order"
       (constructor_heap Examples.back_edge_behind_cycle)).1 = OutOfFuel.
Proof.
  split.
  { apply tc_l with ".Customer"; [|apply tc_once]; by_computation. }
  set (h := constructor_heap Examples.back_edge_behind_cycle).
  assert (Root_resolved (root h)) as Hg by by_computation.
  assert (forall n,
            _detectCircularReference (lib := Examples.protobufjs) n ".Audit" ".Order" h
              = (OutOfFuel, h) /\
            _detectCircularReference (lib := Examples.protobufjs) n ".Entry" ".Order" h
              = (OutOfFuel, h))
    as Hround.
  { induction n as [|n [HA HE]]; [done|].
    rewrite !run_detect_S by done.
    change (refers_to (root h) ".Order" ".Audit") with false.
    change (refers_to (root h) ".Order" ".Entry") with false.
    change (fields (root h) ".Audit") with [message_field "entry" ".Entry"].
    change (fields (root h) ".Entry") with [message_field "audit" ".Audit"].
    rewrite !run_for_of_cons. unfold message_field. cbn [Field.resolvedType].
    by rewrite HE, HA. }
  intros fuel. destruct fuel as [|fuel]; [done|].
  rewrite run_convertMessageType_S by done.
  destruct fuel as [|fuel]; [done|].
  rewrite run_detect_S by done.
  change (refers_to (root h) ".Order" ".Order") with false.
  change (fields (root h) ".Order")
    with [message_field "audit" ".Audit"; message_field "customer" ".Customer"].
  rewrite run_for_of_cons. unfold message_field. cbn [Field.resolvedType].
  by rewrite (proj1 (Hround fuel)).
Qed.

(** ** C3: scalar and enum fields *)

Lemma DEFAULT_TYPE_MAPPING_entries tag ty :
  DEFAULT_TYPE_MAPPING !! tag = Some ty <-> (tag, ty) ∈ default_entries.
Proof.
  unfold DEFAULT_TYPE_MAPPING. symmetry. apply elem_of_list_to_map. by_computation.
Qed.

Lemma constructor_typeMapping_lookup config tag :
  constructor_typeMapping config !! tag =
    match config !! tag with
    | Some ty => Some ty
    | None => DEFAULT_TYPE_MAPPING !! tag
    end.
Proof.
  unfold constructor_typeMapping. rewrite lookup_union.
  destruct (config !! tag), (DEFAULT_TYPE_MAPPING !! tag); done.
Qed.

(** C3, as amended.  A non-repeated field whose type is a scalar tag listed
    in the active mapping becomes a column with the field's name and the
    mapping's entry for the tag.  A non-repeated field whose type is an enum
    becomes a column of the mapping's [enum] entry, whatever the enum is,
    and the nested conversion is never entered; for a repeated enum field
    the column is the list of that entry.  The default mapping holds exactly
    the nine entries of [default_entries], and an override replaces entries
    key by key. *)
Theorem convertField_scalar_and_enum
    {lib : Protobufjs} {contract : ProtobufjsContract lib}
    (typeMapping : gmap string GlueType) (rec : string -> M (list Column))
    (f : Field) (h : Heap) :
  Field.resolved f = true ->
  (Field.repeated f = false -> Field.resolvedType f = None ->
   forall ty, typeMapping !! Field.type f = Some ty ->
     _convertField typeMapping rec f h = (Return (mkColumn (Field.name f) ty), h)) /\
  (forall e, Field.resolvedType f = Some (IsEnum e) ->
     _convertField typeMapping rec f h =
       (Return (mkColumn (Field.name f)
                  (if Field.repeated f
                   then glueSchema.array (typeMapping !!! "enum")
                   else typeMapping !!! "enum")), h)) /\
  (forall tag ty, DEFAULT_TYPE_MAPPING !! tag = Some ty <-> (tag, ty) ∈ default_entries) /\
  (forall config tag,
     constructor_typeMapping config !! tag =
       match config !! tag with
       | Some ty => Some ty
       | None => DEFAULT_TYPE_MAPPING !! tag
       end).
Proof.
  intros Hres. split; [|split; [|split]].
  - intros Hrep Hnull ty Hty. rewrite run_convertField, Hrep by done.
    by apply run_convertNonRepeatedField_scalar.
  - intros e He. rewrite run_convertField by done.
    rewrite (run_convertNonRepeatedField_enum _ _ f e h Hres He).
    by destruct (Field.repeated f).
  - apply DEFAULT_TYPE_MAPPING_entries.
  - apply constructor_typeMapping_lookup.
Qed.

Lemma convertField_scalar_and_enum_witness :
  let age := scalar_field "age" "int32" in
  let user_status := enum_field "user_status" ".GlobalStatus" in
  let rec := _convertMessageType (lib := Examples.protobufjs) DEFAULT_TYPE_MAPPING 2 in
  let h := constructor_heap Examples.comprehensive in
  Field.resolved age = true /\
  _convertField (lib := Examples.protobufjs) DEFAULT_TYPE_MAPPING rec age h =
    (Return (mkColumn "age" glueSchema.INTEGER), h) /\
  Field.resolved user_status = true /\
  _convertField (lib := Examples.protobufjs) DEFAULT_TYPE_MAPPING rec user_status h =
    (Return (mkColumn "user_status" glueSchema.STRING), h).
Proof.
  exact (conj eq_refl
          (conj
           (proj1 (convertField_scalar_and_enum (lib := Examples.protobufjs)
                     DEFAULT_TYPE_MAPPING
                     (_convertMessageType (lib := Examples.protobufjs) DEFAULT_TYPE_MAPPING 2)
                     (scalar_field "age" "int32")
                     (constructor_heap Examples.comprehensive) eq_refl)
              eq_refl eq_refl glueSchema.INTEGER eq_refl)
           (conj eq_refl
              (proj1 (proj2 (convertField_scalar_and_enum (lib := Examples.protobufjs)
                               DEFAULT_TYPE_MAPPING
                               (_convertMessageType (lib := Examples.protobufjs)
                                  DEFAULT_TYPE_MAPPING 2)
                               (enum_field "user_status" ".GlobalStatus")
                               (constructor_heap Examples.comprehensive) eq_refl))
                 ".GlobalStatus" eq_refl)))).
Defined.

(** C3 as stated fails for a repeated field: [repeated GlobalStatus
    status_history] resolves to an enum, and its column is the list of the
    [enum] entry, not the entry. *)
Lemma convertField_scalar_and_enum_counterexample :
  let status_history := repeated_field (enum_field "status_history" ".GlobalStatus") in
  let h := constructor_heap Examples.comprehensive in
  Field.resolvedType status_history = Some (IsEnum ".GlobalStatus") /\
  _convertField (lib := Examples.protobufjs) DEFAULT_TYPE_MAPPING
    (_convertMessageType (lib := Examples.protobufjs) DEFAULT_TYPE_MAPPING 2)
    status_history h =
    (Return (mkColumn "status_history" (glueSchema.array glueSchema.STRING)), h) /\
  glueSchema.array glueSchema.STRING <> DEFAULT_TYPE_MAPPING !!! "enum".
Proof. split; [|split]; [reflexivity | vm_compute; reflexivity | vm_compute; discriminate]. Qed.

(** ** C4: repeated fields *)

(** C4.  The column of a repeated field carries the field's own name and the
    list of the type that the same field yields as a non-repeated one, in
    the same state; if that conversion fails the repeated one fails alike.
    For a message-typed field the element is the structure of the nested
    columns. *)
Theorem convertField_repeated
    {lib : Protobufjs} {contract : ProtobufjsContract lib}
    (typeMapping : gmap string GlueType) (rec : string -> M (list Column))
    (f : Field) (h : Heap) :
  Field.resolved f = true ->
  Field.repeated f = true ->
  _convertField typeMapping rec f h =
    match _convertField typeMapping rec (singular_field f) h with
    | (Return column, h') =>
        (Return (mkColumn (Field.name f) (glueSchema.array (type column))), h')
    | (Throw e, h') => (Throw e, h')
    | (OutOfFuel, h') => (OutOfFuel, h')
    end /\
  (forall t columns h',
     Field.resolvedType f = Some (IsType t) ->
     rec t h = (Return columns, h') ->
     _convertField typeMapping rec f h =
       (Return (mkColumn (Field.name f)
                  (glueSchema.array (glueSchema.struct columns))), h')).
Proof.
  intros Hres Hrep.
  assert (_convertField typeMapping rec (singular_field f) h =
          _convertNonRepeatedField typeMapping rec f h) as Hsingular.
  { rewrite run_convertField by done. simpl. by apply run_convertNonRepeatedField_singular. }
  split.
  - by rewrite Hsingular, run_convertField, Hrep.
  - intros t cols h' Ht Hrec. rewrite run_convertField, Hrep by done.
    rewrite (run_convertNonRepeatedField_message _ _ f t h Hres Ht), Hrec. done.
Qed.

Lemma convertField_repeated_witness :
  let scores := repeated_field (scalar_field "scores" "int64") in
  let rec := _convertMessageType (lib := Examples.protobufjs) DEFAULT_TYPE_MAPPING 2 in
  let h := constructor_heap Examples.comprehensive in
  Field.resolved scores = true /\
  Field.repeated scores = true /\
  _convertField (lib := Examples.protobufjs) DEFAULT_TYPE_MAPPING rec (singular_field scores) h =
    (Return (mkColumn "scores" glueSchema.BIG_INT), h) /\
  _convertField (lib := Examples.protobufjs) DEFAULT_TYPE_MAPPING rec scores h =
    (Return (mkColumn "scores" (glueSchema.array glueSchema.BIG_INT)), h).
Proof.
  exact (conj eq_refl (conj eq_refl (conj eq_refl
           (proj1 (convertField_repeated (lib := Examples.protobufjs)
                     DEFAULT_TYPE_MAPPING
                     (_convertMessageType (lib := Examples.protobufjs) DEFAULT_TYPE_MAPPING 2)
                     (repeated_field (scalar_field "scores" "int64"))
                     (constructor_heap Examples.comprehensive) eq_refl eq_refl))))).
Defined.

(** ** C5: a second call answers from the cache *)

(** C5.  After a call that returned [columns] for a type, any further call
    for that name on the same converter returns the same [columns] and
    leaves the heap as it is.  One unit of fuel is enough, and the answer is
    the same whatever the library, the type mapping and the graph are: the
    second call traverses no field, runs no detection and looks nothing up
    in the mapping. *)
Theorem convertMessageType_idempotent
    {lib : Protobufjs} (typeMapping : gmap string GlueType)
    (fuel : nat) (N : string) (h : Heap) (columns : list Column) (h' : Heap) :
  _convertMessageType typeMapping fuel N h = (Return columns, h') ->
  (forall fuel', _convertMessageType typeMapping (S fuel') N h' = (Return columns, h')) /\
  (forall (lib' : Protobufjs) typeMapping' fuel' g',
     _convertMessageType (lib := lib') typeMapping' (S fuel') N
       (mkHeap g' (_processedMessages h')) =
     (Return columns, mkHeap g' (_processedMessages h'))).
Proof.
  intros Hrun. apply convertMessageType_Return_cached in Hrun. split.
  - intros fuel'. by apply run_convertMessageType_cached.
  - intros lib' tm' fuel' g'. by apply run_convertMessageType_cached.
Qed.

Lemma run_convertMessageType_user :
  _convertMessageType (lib := Examples.protobufjs) DEFAULT_TYPE_MAPPING 3 ".User"
    (constructor_heap Examples.user) =
  (Return user_columns, mkHeap Examples.user user_cache).
Proof. vm_compute. reflexivity. Qed.

Lemma convertMessageType_idempotent_witness :
  let h := constructor_heap Examples.user in
  let h' := mkHeap Examples.user user_cache in
  _convertMessageType (lib := Examples.protobufjs) DEFAULT_TYPE_MAPPING 3 ".User" h =
    (Return user_columns, h') /\
  _convertMessageType (lib := Examples.protobufjs) DEFAULT_TYPE_MAPPING 1 ".User" h' =
    (Return user_columns, h').
Proof.
  exact (conj run_convertMessageType_user
           (proj1 (convertMessageType_idempotent (lib := Examples.protobufjs)
                     DEFAULT_TYPE_MAPPING 3 ".User" (constructor_heap Examples.user)
                     user_columns (mkHeap Examples.user user_cache)
                     run_convertMessageType_user) 0)).
Defined.

(** ** C6: one column per field, in declaration order *)




(** ** C7: selecting the target type *)

(** C7.  With the graph [g] that the loader hands over: an explicit name
    that is absent from [g] fails with [MessageNotFound] carrying the name;
    no name on a graph without message types fails with
    [NoMessageTypeFound]; the two errors differ; and with no name the call
    is the conversion of the first top-level message type in declaration
    order, the declarations before it being enums or namespaces. *)
Theorem generateGlueSchema_target
    {lib : Protobufjs} (typeMapping : gmap string GlueType)
    (fuel : nat) (protoFile : string) (g0 g : Root) (h : Heap) :
  loadSync protoFile = Return g0 ->
  Root_resolveAll g0 = (Return tt, g) ->
  let h1 := mkHeap g (_processedMessages h) in
  (forall messageName, types g !! messageName = None ->
     generateGlueSchema typeMapping fuel protoFile (Some messageName) h =
       (Throw (MessageNotFound messageName), h1)) /\
  (Root_wf g -> types g = ∅ ->
     generateGlueSchema typeMapping fuel protoFile None h = (Throw NoMessageTypeFound, h1)) /\
  (forall messageName, MessageNotFound messageName <> NoMessageTypeFound) /\
  (forall pre t post,
     nestedArray g = (pre ++ NestedType t :: post)%list ->
     Forall (fun n => forall t', n <> NestedType t') pre ->
     generateGlueSchema typeMapping fuel protoFile None h =
       _convertMessageType typeMapping fuel t h1).
Proof.
  intros Hload Hresolve h1. split; [|split; [|split]].
  - intros n Hn. rewrite (run_generateGlueSchema _ _ _ _ _ g0 g) by done. simpl.
    by rewrite Hn.
  - intros Hwf Hnone. rewrite (run_generateGlueSchema _ _ _ _ _ g0 g) by done. simpl.
    rewrite find_Type_none; [done|]. intros t Ht. apply Hwf in Ht as [fs Hfs].
    rewrite Hnone in Hfs. by rewrite lookup_empty in Hfs.
  - done.
  - intros pre t post Hnested Hpre.
    rewrite (run_generateGlueSchema _ _ _ _ _ g0 g) by done. simpl.
    by rewrite (find_Type_first _ pre t post).
Qed.

Lemma generateGlueSchema_target_witness :
  let convert := generateGlueSchema (lib := Examples.protobufjs) DEFAULT_TYPE_MAPPING 3 in
  let h := constructor_heap no_graph in
  convert "test-comprehensive-mock.proto" (Some "NonExistentMessage") h =
    (Throw (MessageNotFound "NonExistentMessage"), constructor_heap Examples.comprehensive) /\
  convert "test-empty-mock.proto" None h = (Throw NoMessageTypeFound, h) /\
  convert "test-comprehensive-mock.proto" None h =
    _convertMessageType (lib := Examples.protobufjs) DEFAULT_TYPE_MAPPING 3 ".NestedMessage"
      (constructor_heap Examples.comprehensive).
Proof.
  pose proof (generateGlueSchema_target (lib := Examples.protobufjs) DEFAULT_TYPE_MAPPING 3
                "test-comprehensive-mock.proto" Examples.comprehensive Examples.comprehensive
                (constructor_heap no_graph) eq_refl eq_refl) as Hfull.
  pose proof (generateGlueSchema_target (lib := Examples.protobufjs) DEFAULT_TYPE_MAPPING 3
                "test-empty-mock.proto" Examples.empty Examples.empty
                (constructor_heap no_graph) eq_refl eq_refl) as Hempty.
  assert (Root_wf Examples.empty) as Hwf.
  { intros t Ht. by apply elem_of_nil in Ht. }
  assert (Forall (fun n => forall t', n <> NestedType t') [NestedEnum ".GlobalStatus"]) as Hpre.
  { by repeat constructor. }
  exact (conj (proj1 Hfull "NonExistentMessage" eq_refl)
           (conj (proj1 (proj2 Hempty) Hwf eq_refl)
              (proj2 (proj2 (proj2 Hfull)) [NestedEnum ".GlobalStatus"] ".NestedMessage"
                 [NestedType ".TestMessage"] eq_refl Hpre))).
Defined.

(** ** C8: unsupported scalar types *)

Lemma run_mapM_Throw {A B} (F : A -> M B) (pre : list A) x post h ys h1 e h2 :
  mapM F pre h = (Return ys, h1) ->
  F x h1 = (Throw e, h2) ->
  mapM F (pre ++ x :: post)%list h = (Throw e, h2).
Proof.
  revert h ys. induction pre as [|p pre IH]; intros h ys Hpre Hx.
  - rewrite run_mapM_nil in Hpre. injection Hpre as <- <-.
    cbn [app]. by rewrite run_mapM_cons, Hx.
  - rewrite run_mapM_cons in Hpre. cbn [app]. rewrite run_mapM_cons.
    destruct (F p h) as [[y|e'|] h0]; [|done..].
    destruct (mapM F pre h0) as [[ys'|e'|] h0'] eqn:Hrest; [|done..].
    injection Hpre as <- <-. by rewrite (IH h0 ys' Hrest Hx).
Qed.

(** C8 says that [_convertField] throws [UnsupportedType] for every scalar
    tag that has no entry in the active mapping.  The code does not: the
    guard [assertKey], written to tell the keys of the mapping, tests the
    tag with [in], which also holds of the names that the mapping inherits
    from [Object.prototype].  A non-repeated field without resolved type
    whose tag is such a name and has no entry in the mapping is let through,
    and its column gets the inherited value for its type; for the message
    [Event] with a field of declared type [toString], [generateGlueSchema]
    returns two columns and caches them, where the claim has it throw
    [UnsupportedType]. *)
Theorem unsupported_type_inherited_tag
    {lib : Protobufjs} {contract : ProtobufjsContract lib}
    (typeMapping : gmap string GlueType) (rec : string -> M (list Column))
    (f : Field) (h : Heap) :
  Field.resolved f = true -> Field.repeated f = false ->
  Field.resolvedType f = None ->
  typeMapping !! Field.type f = None -> Field.type f ∈ Object_prototype ->
  _convertField typeMapping rec f h =
    (Return (mkColumn (Field.name f) (Inherited (Field.type f))), h) /\
  generateGlueSchema (lib := Examples.protobufjs) (constructor_typeMapping ∅) 2
    "event.proto" (Some ".Event") (constructor_heap no_graph) =
    (Return [mkColumn "label" glueSchema.STRING; mkColumn "stamp" (Inherited "toString")],
     mkHeap Examples.event
       {[ ".Event" := [mkColumn "label" glueSchema.STRING;
                       mkColumn "stamp" (Inherited "toString")] ]}).
Proof.
  intros Hres Hrep Hnull Hty Hin. split.
  - rewrite run_convertField, Hrep by done.
    by apply run_convertNonRepeatedField_inherited.
  - vm_compute. reflexivity.
Qed.

Lemma unsupported_type_inherited_tag_witness :
  let stamp := scalar_field "stamp" "toString" in
  let h := constructor_heap Examples.event in
  constructor_typeMapping ∅ !! "toString" = None /\
  "toString" ∈ Object_prototype /\
  _convertField (lib := Examples.protobufjs) (constructor_typeMapping ∅)
    (_convertMessageType (lib := Examples.protobufjs) (constructor_typeMapping ∅) 1) stamp h =
    (Return (mkColumn "stamp" (Inherited "toString")), h).
Proof.
  assert ("toString" ∈ Object_prototype) as Hin by by_computation.
  exact (conj eq_refl (conj Hin
           (proj1 (unsupported_type_inherited_tag (lib := Examples.protobufjs)
                     (constructor_typeMapping ∅)
                     (_convertMessageType (lib := Examples.protobufjs)
                        (constructor_typeMapping ∅) 1)
                     (scalar_field "stamp" "toString") (constructor_heap Examples.event)
                     eq_refl eq_refl eq_refl eq_refl Hin)))).
Defined.

(** X14.  A non-repeated field whose type is neither a message nor an enum
    and whose tag is no property of the active mapping, neither an entry of
    its own nor a name inherited from [Object.prototype], makes
    [_convertField] throw [UnsupportedType] with that tag.  A field that
    throws makes the conversion of its message throw the same error, a
    nested message that throws makes the field holding it throw the same
    error, and [generateGlueSchema] passes the error on: the caller gets the
    error and no columns. *)
Theorem unsupported_type_aborts
    {lib : Protobufjs} {contract : ProtobufjsContract lib}
    (typeMapping : gmap string GlueType) :
  (forall rec f h,
     Field.resolved f = true -> Field.repeated f = false ->
     Field.resolvedType f = None ->
     typeMapping !! Field.type f = None -> Field.type f ∉ Object_prototype ->
     _convertField typeMapping rec f h = (Throw (UnsupportedType (Field.type f)), h)) /\
  (forall fuel N h pre f post columns h1 e h2,
     Root_resolved (root h) ->
     _processedMessages h !! N = None ->
     fields (root h) N = (pre ++ f :: post)%list ->
     (_detectCircularReference fuel N N h).1 = Return tt ->
     mapM (_convertField typeMapping (_convertMessageType typeMapping fuel)) pre h =
       (Return columns, h1) ->
     _convertField typeMapping (_convertMessageType typeMapping fuel) f h1 = (Throw e, h2) ->
     _convertMessageType typeMapping (S fuel) N h = (Throw e, h2)) /\
  (forall rec f t h e h',
     Field.resolved f = true ->
     Field.resolvedType f = Some (IsType t) ->
     rec t h = (Throw e, h') ->
     _convertField typeMapping rec f h = (Throw e, h')) /\
  (forall fuel protoFile g0 g h N fs e h',
     loadSync protoFile = Return g0 ->
     Root_resolveAll g0 = (Return tt, g) ->
     types g !! N = Some fs ->
     _convertMessageType typeMapping fuel N (mkHeap g (_processedMessages h)) = (Throw e, h') ->
     generateGlueSchema typeMapping fuel protoFile (Some N) h = (Throw e, h')).
Proof.
  split; [|split; [|split]].
  - intros rec f h Hres Hrep Hnull Hty Hproto. rewrite run_convertField, Hrep by done.
    by apply run_convertNonRepeatedField_unmapped.
  - intros fuel N h pre f post cols h1 e h2 Hg Hmiss Hfs Hdetect Hpre Hf.
    rewrite run_convertMessageType_S by done.
    destruct (_detectCircularReference fuel N N h) as [[[]|e'|] h0]; [|done..].
    by rewrite Hfs, (run_mapM_Throw _ pre f post h cols h1 e h2).
  - intros rec f t h e h' Hres Ht Hrec. rewrite run_convertField by done.
    rewrite (run_convertNonRepeatedField_message _ _ f t h Hres Ht), Hrec.
    by destruct (Field.repeated f).
  - intros fuel protoFile g0 g h N fs e h' Hload Hresolve HN Hrun.
    rewrite (run_generateGlueSchema _ _ _ _ _ g0 g) by done. simpl. by rewrite HN.
Qed.

Lemma unsupported_type_aborts_witness :
  let hits := scalar_field "hits" "uint32" in
  let h := constructor_heap Examples.counters in
  _convertField (lib := Examples.protobufjs) DEFAULT_TYPE_MAPPING
    (_convertMessageType (lib := Examples.protobufjs) DEFAULT_TYPE_MAPPING 1) hits h =
    (Throw (UnsupportedType "uint32"), h) /\
  _convertMessageType (lib := Examples.protobufjs) DEFAULT_TYPE_MAPPING 2 ".Counters" h =
    (Throw (UnsupportedType "uint32"), h) /\
  generateGlueSchema (lib := Examples.protobufjs) DEFAULT_TYPE_MAPPING 2 "counters.proto"
    (Some ".Counters") (constructor_heap no_graph) =
    (Throw (UnsupportedType "uint32"), h).
Proof.
  pose proof (unsupported_type_aborts (lib := Examples.protobufjs) DEFAULT_TYPE_MAPPING)
    as (Hfield & Hmessage & _ & Hentry).
  assert (Root_resolved Examples.counters) as Hg by by_computation.
  pose proof (Hfield (_convertMessageType (lib := Examples.protobufjs) DEFAULT_TYPE_MAPPING 1)
                (scalar_field "hits" "uint32") (constructor_heap Examples.counters)
                eq_refl eq_refl eq_refl eq_refl ltac:(by_computation)) as H1.
  pose proof (Hmessage 1 ".Counters" (constructor_heap Examples.counters)
                [scalar_field "label" "string"] (scalar_field "hits" "uint32")
                [scalar_field "total" "int64"]
                [mkColumn "label" glueSchema.STRING] (constructor_heap Examples.counters)
                (UnsupportedType "uint32") (constructor_heap Examples.counters)
                Hg eq_refl eq_refl eq_refl eq_refl H1) as H2.
  exact (conj H1 (conj H2
           (Hentry 2 "counters.proto" Examples.counters Examples.counters
              (constructor_heap no_graph) ".Counters" _
              (UnsupportedType "uint32") (constructor_heap Examples.counters)
              eq_refl eq_refl eq_refl H2))).
Defined.

(** ** C9: the graph is only read *)

(** C9.  On a linked graph, none of [_convertField], [_detectCircularReference]
    and [_convertMessageType] changes the graph, whatever the outcome: the
    graph in the heap after the call is the graph before it.  Detection
    leaves the whole heap as it is; the conversions change at most the
    cache. *)
Theorem converter_reads_graph_only
    {lib : Protobufjs} {contract : ProtobufjsContract lib}
    (typeMapping : gmap string GlueType) (fuel : nat) (h : Heap) :
  Root_resolved (root h) ->
  (forall f, Field.resolved f = true ->
     root (_convertField typeMapping (_convertMessageType typeMapping fuel) f h).2 = root h) /\
  (forall messageType referenceMessageType,
     (_detectCircularReference fuel messageType referenceMessageType h).2 = h) /\
  (forall messageType,
     root (_convertMessageType typeMapping fuel messageType h).2 = root h).
Proof.
  intros Hg. split; [|split].
  - intros f Hf. apply convertField_root; [|done..].
    intros t h0 Hg0. by apply convertMessageType_root.
  - intros cur origin. by apply detect_heap.
  - intros N. by apply convertMessageType_root.
Qed.

Lemma converter_reads_graph_only_witness :
  let h := constructor_heap Examples.comprehensive in
  Root_resolved (root h) /\
  root (_convertMessageType (lib := Examples.protobufjs) DEFAULT_TYPE_MAPPING 3
          ".TestMessage" h).2 = Examples.comprehensive.
Proof.
  assert (Root_resolved Examples.comprehensive) as Hg by by_computation.
  exact (conj Hg
           (proj2 (proj2 (converter_reads_graph_only (lib := Examples.protobufjs)
                            DEFAULT_TYPE_MAPPING 3
                            (constructor_heap Examples.comprehensive) Hg))
              ".TestMessage")).
Defined.

(** ** C10: the cache is keyed by name and kept across calls *)

(** C10.  Once the cache holds columns for the name [N], a call of
    [_convertMessageType] for [N] returns them and changes nothing, whatever
    the library, the mapping and the graph in the heap are; so does
    [generateGlueSchema] for [N] on any schema source that declares a type
    of that name, whatever its fields.  No call, whatever its outcome,
    removes or changes an entry that was there before it; and on a linked
    graph the one write of [_convertMessageType] stores under a name that is
    not in the cache at that moment. *)
Theorem cache_keyed_by_name
    {lib : Protobufjs} (typeMapping : gmap string GlueType)
    (N : string) (columns : list Column) (h : Heap) :
  _processedMessages h !! N = Some columns ->
  (forall fuel, _convertMessageType typeMapping (S fuel) N h = (Return columns, h)) /\
  (forall fuel protoFile g0 g fs,
     loadSync protoFile = Return g0 ->
     Root_resolveAll g0 = (Return tt, g) ->
     types g !! N = Some fs ->
     generateGlueSchema typeMapping (S fuel) protoFile (Some N) h =
       (Return columns, mkHeap g (_processedMessages h))) /\
  (forall fuel protoFile g0 g,
     loadSync protoFile = Return g0 ->
     Root_resolveAll g0 = (Return tt, g) ->
     find_Type (nestedArray g) = Some N ->
     generateGlueSchema typeMapping (S fuel) protoFile None h =
       (Return columns, mkHeap g (_processedMessages h))) /\
  (forall fuel messageType,
     _processedMessages (_convertMessageType typeMapping fuel messageType h).2 !! N =
       Some columns) /\
  (forall fuel protoFile messageName,
     _processedMessages (generateGlueSchema typeMapping fuel protoFile messageName h).2 !! N =
       Some columns) /\
  (ProtobufjsContract lib ->
   forall fuel T h0 columns0 h2,
     Root_resolved (root h0) ->
     _processedMessages h0 !! T = None ->
     (_detectCircularReference fuel T T h0).1 = Return tt ->
     mapM (_convertField typeMapping (_convertMessageType typeMapping fuel))
          (fields (root h0) T) h0 = (Return columns0, h2) ->
     _processedMessages h2 !! T = None).
Proof.
  intros Hhit. split; [|split; [|split; [|split; [|split]]]].
  - intros fuel. by apply run_convertMessageType_cached.
  - intros fuel protoFile g0 g fs Hload Hresolve HN.
    rewrite (run_generateGlueSchema _ _ _ _ _ g0 g) by done. simpl. rewrite HN.
    by apply run_convertMessageType_cached.
  - intros fuel protoFile g0 g Hload Hresolve HN.
    rewrite (run_generateGlueSchema _ _ _ _ _ g0 g) by done. simpl. rewrite HN.
    by apply run_convertMessageType_cached.
  - intros fuel T. eapply lookup_weaken; [exact Hhit|].
    apply grows_convertMessageType.
  - intros fuel protoFile messageName. eapply lookup_weaken; [exact Hhit|].
    apply grows_generateGlueSchema.
  - intros contract fuel T h0 cols h2. by apply convertMessageType_writes_fresh.
Qed.

Lemma cache_keyed_by_name_witness :
  let h := mkHeap Examples.user user_cache in
  _processedMessages h !! ".Address" = Some address_columns /\
  generateGlueSchema (lib := Examples.protobufjs) DEFAULT_TYPE_MAPPING 1
    "other-address.proto" (Some ".Address") h =
    (Return address_columns, mkHeap Examples.other_address user_cache).
Proof.
  exact (conj eq_refl
           (proj1 (proj2 (cache_keyed_by_name (lib := Examples.protobufjs)
                            DEFAULT_TYPE_MAPPING ".Address" address_columns
                            (mkHeap Examples.user user_cache) eq_refl))
              0 "other-address.proto" Examples.other_address Examples.other_address _
              eq_refl eq_refl eq_refl)).
Defined.


(** * Worked examples *)

(** The README's example: [User] with the default mapping. *)
Example generateGlueSchema_user :
  generateGlueSchema (lib := Examples.protobufjs) DEFAULT_TYPE_MAPPING 3 "example.proto"
    (Some ".User") (constructor_heap no_graph) =
  (Return user_columns, mkHeap Examples.user user_cache).
Proof. vm_compute. reflexivity. Qed.

(** The README's custom mapping: [int32] overridden to [BIG_INT] changes the
    column [age] and nothing else. *)
Example generateGlueSchema_user_custom_mapping :
  (generateGlueSchema (lib := Examples.protobufjs)
     (constructor_typeMapping {[ "int32" := glueSchema.BIG_INT ]}) 3 "example.proto"
     (Some ".User") (constructor_heap no_graph)).1 =
  Return [ mkColumn "name" glueSchema.STRING;
           mkColumn "age" glueSchema.BIG_INT;
           mkColumn "hobbies" (glueSchema.array glueSchema.STRING);
           mkColumn "address" (glueSchema.struct address_columns) ].
Proof. vm_compute. reflexivity. Qed.

(** The memoization test: three fields of one nested type give three equal
    structured columns. *)
Example generateGlueSchema_memoization :
  let nested :=
    glueSchema.struct
      [mkColumn "field1" glueSchema.STRING; mkColumn "field2" glueSchema.INTEGER] in
  (generateGlueSchema (lib := Examples.protobufjs) DEFAULT_TYPE_MAPPING 3
     "memoization-test.proto" (Some ".ParentMessage") (constructor_heap no_graph)).1 =
  Return [mkColumn "nested_1" nested; mkColumn "nested_2" nested; mkColumn "nested_3" nested].
Proof. vm_compute. reflexivity. Qed.

(** The two circular-reference tests. *)
Example generateGlueSchema_direct_circular :
  (generateGlueSchema (lib := Examples.protobufjs) DEFAULT_TYPE_MAPPING 3
     "test-direct-circular-mock.proto" None (constructor_heap no_graph)).1 =
  Throw (CircularReference ".CircularMessage").
Proof. vm_compute. reflexivity. Qed.

Example generateGlueSchema_indirect_circular :
  (generateGlueSchema (lib := Examples.protobufjs) DEFAULT_TYPE_MAPPING 3
     "test-indirect-circular-mock.proto" (Some ".MessageA")
     (constructor_heap no_graph)).1 =
  Throw (CircularReference ".MessageA").
Proof. vm_compute. reflexivity. Qed.

(** The comprehensive test schema converts, whole. *)
Example generateGlueSchema_comprehensive :
  (generateGlueSchema (lib := Examples.protobufjs) DEFAULT_TYPE_MAPPING 3
     "test-comprehensive-mock.proto" (Some ".TestMessage")
     (constructor_heap no_graph)).1 =
  Return [ mkColumn "name" glueSchema.STRING;
           mkColumn "age" glueSchema.INTEGER;
           mkColumn "height" glueSchema.DOUBLE;
           mkColumn "weight" glueSchema.FLOAT;
           mkColumn "is_student" glueSchema.BOOLEAN;
           mkColumn "custom_data" glueSchema.STRING;
           mkColumn "hobbies" (glueSchema.array glueSchema.STRING);
           mkColumn "scores" (glueSchema.array glueSchema.BIG_INT);
           mkColumn "nested_info"
             (glueSchema.struct
                [mkColumn "is_active" glueSchema.BOOLEAN; mkColumn "score" glueSchema.DOUBLE]);
           mkColumn "user_status" glueSchema.STRING;
           mkColumn "status_history" (glueSchema.array glueSchema.STRING);
           mkColumn "local_status" glueSchema.STRING ].
Proof. vm_compute. reflexivity. Qed.

(** A schema without containment cycles converts with fuel beyond its
    nesting depth. *)
Example convertMessageType_terminates_user :
  (_convertMessageType (lib := Examples.protobufjs) DEFAULT_TYPE_MAPPING 3 ".User"
     (constructor_heap Examples.user)).1 <> OutOfFuel.
Proof.
  apply (convertMessageType_terminates (lib := Examples.protobufjs) DEFAULT_TYPE_MAPPING 2);
    [by_computation | reflexivity | lia].
Qed.


(** * Further properties *)

(** ** The verdict of the detection *)

Section DetectionVerdict.
Context {lib : Protobufjs} {contract : ProtobufjsContract lib}.

(** The only error of the detection is the circular reference of the type
    it was asked about. *)
Lemma detect_Throw_error fuel cur origin h e h' :
  Root_resolved (root h) ->
  _detectCircularReference fuel cur origin h = (Throw e, h') ->
  e = CircularReference origin.
Proof.
  intros Hg. revert cur h'. induction fuel as [|fuel IH]; intros cur h'; [done|].
  rewrite run_detect_S by done.
  destruct (refers_to (root h) origin cur); [by intros [= <- _]|].
  generalize (fields (root h) cur). intros fs.
  induction fs as [|f fs IHfs]; [done|].
  rewrite run_for_of_cons. cbv beta.
  destruct (Field.resolvedType f) as [[t|]|].
  - pose proof (detect_heap fuel t origin h Hg) as Hheap.
    destruct (_detectCircularReference fuel t origin h) as [[[]|e'|] h1] eqn:Hcall;
      simpl in Hheap; subst h1; [done| |done].
    intros [= -> <-]. by eapply IH.
  - by rewrite run_ret.
  - by rewrite run_ret.
Qed.
End DetectionVerdict.

(** X1.  On a linked graph the detection started at [cur] for [origin]
    raises no false alarm and misses nothing it gets to: if it returns, no
    chain of message-typed fields leads from [cur] to [origin]; if it
    throws, the error is [CircularReference origin] and such a chain exists;
    either way the heap is untouched.  When the search is bounded it does
    come to one of the two verdicts. *)
Theorem detectCircularReference_verdict
    {lib : Protobufjs} {contract : ProtobufjsContract lib}
    (fuel : nat) (cur origin : string) (h : Heap) :
  Root_resolved (root h) ->
  (forall h', _detectCircularReference fuel cur origin h = (Return tt, h') ->
     h' = h /\ ~ tc (contains (root h)) cur origin) /\
  (forall e h', _detectCircularReference fuel cur origin h = (Throw e, h') ->
     h' = h /\ e = CircularReference origin /\ tc (contains (root h)) cur origin) /\
  (forall d, search_ends (root h) origin d cur = true -> d <= fuel ->
     (_detectCircularReference fuel cur origin h).1 <> OutOfFuel).
Proof.
  intros Hg. pose proof (detect_heap fuel cur origin h Hg) as Hheap.
  split; [|split].
  - intros h' Hrun. rewrite Hrun in Hheap. simpl in Hheap. subst h'.
    split; [done|]. by eapply detect_Return_no_path.
  - intros e h' Hrun. rewrite Hrun in Hheap. simpl in Hheap. subst h'.
    split; [done|]. split; [by eapply detect_Throw_error|by eapply detect_Throw_path].
  - intros d Hends Hle. by destruct (detect_total d fuel cur origin h Hg Hends Hle) as [-> | ->].
Qed.

Lemma detectCircularReference_verdict_witness :
  let h := constructor_heap Examples.indirect_circular in
  Root_resolved (root h) /\
  _detectCircularReference (lib := Examples.protobufjs) 2 ".MessageB" ".MessageA" h =
    (Throw (CircularReference ".MessageA"), h) /\
  tc (contains (root h)) ".MessageB" ".MessageA".
Proof.
  assert (Root_resolved Examples.indirect_circular) as Hg by by_computation.
  exact (conj Hg (conj eq_refl
           (proj2 (proj2 (proj1 (proj2
              (detectCircularReference_verdict (lib := Examples.protobufjs) 2
                 ".MessageB" ".MessageA" (constructor_heap Examples.indirect_circular) Hg))
              (CircularReference ".MessageA") (constructor_heap Examples.indirect_circular)
              eq_refl))))).
Defined.

(** ** Errors of a conversion are genuine *)

Lemma run_mapM_Throw_inv {A B} (F : A -> M B) (xs : list A) h e h' :
  mapM F xs h = (Throw e, h') ->
  exists pre x post ys h1,
    xs = (pre ++ x :: post)%list /\
    mapM F pre h = (Return ys, h1) /\
    F x h1 = (Throw e, h').
Proof.
  revert h. induction xs as [|x xs IH]; intros h; [done|].
  rewrite run_mapM_cons.
  destruct (F x h) as [[y|e0|] h0] eqn:Hx.
  - destruct (mapM F xs h0) as [[ys|e1|] h2] eqn:Hxs; [done| |done].
    intros [= -> <-].
    destruct (IH h0 Hxs) as (pre & x' & post & ys' & h1 & -> & Hpre & Hx').
    exists (x :: pre), x', post, (y :: ys'), h1. split; [done|]. split; [|done].
    by rewrite run_mapM_cons, Hx, Hpre.
  - intros [= -> <-]. exists [], x, xs, [], h. by rewrite run_mapM_nil.
  - done.
Qed.

Section GenuineErrors.
Context {lib : Protobufjs} {contract : ProtobufjsContract lib}.
Variable typeMapping : gmap string GlueType.

Lemma genuine_error_step g N t e :
  contains g N t -> genuine_error typeMapping g t e -> genuine_error typeMapping g N e.
Proof.
  intros Hstep [(t' & -> & Hreach & Hloop) | (T & f & -> & Hreach & Hrest)].
  - left. exists t'. split; [done|]. split; [by eapply rtc_l|done].
  - right. exists T, f. split; [done|]. split; [by eapply rtc_l|done].
Qed.

Lemma convertMessageType_Throw_genuine fuel N h e h' :
  Root_resolved (root h) ->
  _convertMessageType typeMapping fuel N h = (Throw e, h') ->
  genuine_error typeMapping (root h) N e.
Proof.
  revert N h h'. induction fuel as [|fuel IH]; intros N h h' Hg; [done|].
  destruct (_processedMessages h !! N) as [cached|] eqn:Hhit.
  { by erewrite run_convertMessageType_cached. }
  rewrite run_convertMessageType_S by done.
  destruct (_detectCircularReference fuel N N h) as [[[]|e0|] h0] eqn:Hdetect; [| |done].
  2:{ intros [= -> <-]. left. exists N. split; [by eapply detect_Throw_error|].
      split; [done|]. by eapply detect_Throw_path. }
  destruct (mapM (M:=M) _ (fields (root h) N) h) as [[cols|e1|] h2] eqn:Hmap; [done| |done].
  intros [= -> <-].
  apply run_mapM_Throw_inv in Hmap as (pre & f & post & ys & h1 & Hfs & Hpre & Hf).
  pose proof (fields_Forall_resolved (root h) N Hg) as Hres.
  rewrite Hfs in Hres. apply Forall_app in Hres as [Hres_pre Hres_f].
  apply Forall_cons in Hres_f as [Hres_f _].
  pose proof (mapM_convertField_root typeMapping (_convertMessageType typeMapping fuel)
                pre h (fun t h3 Hg3 => convertMessageType_root typeMapping fuel t h3 Hg3)
                Hres_pre Hg) as Hroot.
  rewrite Hpre in Hroot. simpl in Hroot.
  assert (f ∈ fields (root h) N) as Hin.
  { rewrite Hfs. apply elem_of_app. right. left. }
  rewrite run_convertField in Hf by done.
  assert (_convertNonRepeatedField typeMapping (_convertMessageType typeMapping fuel) f h1
            = (Throw e, h2)) as Hsingular.
  { destruct (Field.repeated f); [|done].
    by destruct (_convertNonRepeatedField _ _ f h1) as [[c|e2|] h3];
      simplify_eq. }
  clear Hf. destruct (Field.resolvedType f) as [[t|en]|] eqn:Hty.
  - rewrite (run_convertNonRepeatedField_message _ _ f t h1 Hres_f Hty) in Hsingular.
    destruct (_convertMessageType typeMapping fuel t h1) as [[cols|e2|] h3] eqn:Hrec;
      simplify_eq.
    apply genuine_error_step with t.
    + apply Exists_exists. by exists f.
    + rewrite <- Hroot. eapply IH; [by rewrite Hroot|done].
  - by rewrite (run_convertNonRepeatedField_enum _ _ f en h1 Hres_f Hty) in Hsingular.
  - rewrite (run_convertNonRepeatedField_tag _ _ f h1 Hres_f Hty) in Hsingular.
    destruct (assertKey typeMapping (Field.type f)) eqn:Hkey; [done|].
    apply assertKey_false in Hkey as [Htag _].
    injection Hsingular as <- _. right. exists N, f. done.
Qed.
End GenuineErrors.

(** X2.  On a linked graph, an error thrown by [_convertMessageType] for [N]
    is either [CircularReference t] for a type [t] that is [N] or nested in
    [N] and does lie on a containment cycle, or [UnsupportedType] with the
    declared type of a scalar field of [N] or of a type nested in [N] whose
    tag the mapping does not list.  No other error is thrown. *)
Theorem convertMessageType_errors_genuine
    {lib : Protobufjs} {contract : ProtobufjsContract lib}
    (typeMapping : gmap string GlueType) (fuel : nat) (N : string) (h : Heap)
    (e : Error) (h' : Heap) :
  Root_resolved (root h) ->
  _convertMessageType typeMapping fuel N h = (Throw e, h') ->
  (exists t, e = CircularReference t /\
             rtc (contains (root h)) N t /\ tc (contains (root h)) t t) \/
  (exists T f, e = UnsupportedType (Field.type f) /\
               rtc (contains (root h)) N T /\ f ∈ fields (root h) T /\
               Field.resolvedType f = None /\ typeMapping !! Field.type f = None).
Proof. apply convertMessageType_Throw_genuine. Qed.


Lemma convertMessageType_errors_genuine_witness :
  let h := constructor_heap Examples.counters in
  Root_resolved (root h) /\
  _convertMessageType (lib := Examples.protobufjs) DEFAULT_TYPE_MAPPING 2 ".Counters" h =
    (Throw (UnsupportedType "uint32"), h) /\
  genuine_error DEFAULT_TYPE_MAPPING (root h) ".Counters" (UnsupportedType "uint32").
Proof.
  assert (Root_resolved Examples.counters) as Hg by by_computation.
  exact (conj Hg (conj eq_refl
           (convertMessageType_errors_genuine (lib := Examples.protobufjs)
              DEFAULT_TYPE_MAPPING 2 ".Counters" (constructor_heap Examples.counters)
              (UnsupportedType "uint32") (constructor_heap Examples.counters)
              Hg eq_refl))).
Defined.

(** ** Schemas without containment cycles *)

Lemma nesting_ends_reach g d a b :
  nesting_ends g d a = true -> rtc (contains g) a b ->
  exists d', d' <= d /\ nesting_ends g d' b = true.
Proof.
  intros Hends Hreach. apply rtc_tc in Hreach as [<- | Hpath]; [by exists d|].
  destruct (nesting_ends_step g d a b Hends Hpath) as (d' & Hlt & Hends').
  exists d'. split; [lia|done].
Qed.

(** X3.  On a linked graph in which every chain of message-typed fields
    from [N] ends within [d] steps, [_convertMessageType] for [N] comes to
    an end with fuel beyond [d], and if it throws, the error is
    [UnsupportedType] for a tag that the mapping does not list: never a
    circular reference. *)
Theorem convertMessageType_acyclic_ends
    {lib : Protobufjs} {contract : ProtobufjsContract lib}
    (typeMapping : gmap string GlueType) (d fuel : nat) (N : string) (h : Heap) :
  Root_resolved (root h) ->
  nesting_ends (root h) d N = true ->
  d < fuel ->
  (_convertMessageType typeMapping fuel N h).1 <> OutOfFuel /\
  (forall e h', _convertMessageType typeMapping fuel N h = (Throw e, h') ->
     exists tag, e = UnsupportedType tag /\ typeMapping !! tag = None).
Proof.
  intros Hg Hends Hfuel. split; [by eapply convertMessageType_terminates|].
  intros e h' Hrun.
  destruct (convertMessageType_Throw_genuine typeMapping fuel N h e h' Hg Hrun)
    as [(t & -> & Hreach & Hloop) | (T & f & -> & _ & _ & _ & Htag)].
  - destruct (nesting_ends_reach _ _ _ _ Hends Hreach) as (d' & _ & Hends').
    by destruct (nesting_ends_acyclic _ _ _ Hends').
  - by exists (Field.type f).
Qed.

Lemma convertMessageType_acyclic_ends_witness :
  let h := constructor_heap Examples.counters in
  Root_resolved (root h) /\
  nesting_ends (root h) 1 ".Counters" = true /\
  1 < 2 /\
  (_convertMessageType (lib := Examples.protobufjs) DEFAULT_TYPE_MAPPING 2 ".Counters" h).1
    <> OutOfFuel.
Proof.
  assert (Root_resolved Examples.counters) as Hg by by_computation.
  assert (1 < 2) as Hfuel by lia.
  exact (conj Hg (conj eq_refl (conj Hfuel
           (proj1 (convertMessageType_acyclic_ends (lib := Examples.protobufjs)
                     DEFAULT_TYPE_MAPPING 1 2 ".Counters"
                     (constructor_heap Examples.counters) Hg eq_refl Hfuel))))).
Defined.

(** X4.  On a linked graph in which every chain of message-typed fields
    from [N] ends within [d] steps and every scalar field on the way has its
    tag in the mapping, [_convertMessageType] for [N] returns columns, with
    fuel beyond [d] and whatever the cache holds. *)
Theorem convertMessageType_convertible_returns
    {lib : Protobufjs} {contract : ProtobufjsContract lib}
    (typeMapping : gmap string GlueType) (d fuel : nat) (N : string) (h : Heap) :
  Root_resolved (root h) ->
  convertible typeMapping (root h) d N = true ->
  d < fuel ->
  exists columns h', _convertMessageType typeMapping fuel N h = (Return columns, h').
Proof. apply convertMessageType_returns. Qed.

Lemma convertMessageType_convertible_returns_witness :
  let h := constructor_heap Examples.comprehensive in
  Root_resolved (root h) /\
  convertible DEFAULT_TYPE_MAPPING (root h) 2 ".TestMessage" = true /\
  2 < 3 /\
  exists columns h',
    _convertMessageType (lib := Examples.protobufjs) DEFAULT_TYPE_MAPPING 3 ".TestMessage" h =
      (Return columns, h').
Proof.
  assert (Root_resolved Examples.comprehensive) as Hg by by_computation.
  assert (2 < 3) as Hfuel by lia.
  assert (convertible DEFAULT_TYPE_MAPPING Examples.comprehensive 2 ".TestMessage" = true)
    as Hconv by (vm_compute; reflexivity).
  exact (conj Hg (conj Hconv (conj Hfuel
           (convertMessageType_convertible_returns (lib := Examples.protobufjs)
              DEFAULT_TYPE_MAPPING 2 3 ".TestMessage"
              (constructor_heap Examples.comprehensive) Hg Hconv Hfuel)))).
Defined.

(** ** What a call leaves in the cache *)

Section CacheAfterCall.
Context {lib : Protobufjs} {contract : ProtobufjsContract lib}.
Variable typeMapping : gmap string GlueType.

(** While the fields of [N] are converted, [N] itself stays out of the
    cache, whatever the outcome. *)
Lemma mapM_fields_keep_fresh fuel N h :
  Root_resolved (root h) ->
  _processedMessages h !! N = None ->
  (_detectCircularReference fuel N N h).1 = Return tt ->
  _processedMessages
    (mapM (_convertField typeMapping (_convertMessageType typeMapping fuel))
          (fields (root h) N) h).2 !! N = None.
Proof.
  intros Hg Hnone Hdetect.
  destruct (_processedMessages (mapM (M:=M) _ _ h).2 !! N) as [v|] eqn:Hlate; [exfalso|done].
  destruct (mapM_convertField_adds typeMapping (_convertMessageType typeMapping fuel)
              (fun t h1 Hg1 => convertMessageType_root typeMapping fuel t h1 Hg1)
              (fun t h1 K Hg1 => convertMessageType_adds typeMapping fuel t h1 K Hg1)
              N (fields (root h) N) h N Hg (fun f Hf => Hf) Hnone)
    as (t & Hstep & Hrest).
  { by rewrite Hlate. }
  destruct (_detectCircularReference fuel N N h) as [[[]|e|] h0] eqn:Hrun; [|done..].
  apply (detect_Return_no_path fuel N N h h0 Hg Hrun).
  eapply tc_rtc_r; [by apply tc_once|done].
Qed.

Lemma convertMessageType_failed_uncached fuel N h :
  Root_resolved (root h) ->
  _processedMessages h !! N = None ->
  (forall columns, (_convertMessageType typeMapping fuel N h).1 <> Return columns) ->
  _processedMessages (_convertMessageType typeMapping fuel N h).2 !! N = None.
Proof.
  intros Hg Hnone. destruct fuel as [|fuel]; [done|].
  rewrite run_convertMessageType_S by done.
  pose proof (mapM_fields_keep_fresh fuel N h Hg Hnone) as Hfresh.
  destruct (_detectCircularReference fuel N N h) as [[[]|e|] h0]; [|done..].
  specialize (Hfresh eq_refl).
  destruct (mapM (M:=M) _ _ h) as [[cols|e|] h2]; simpl in *; [|done..].
  intros Hfail. by destruct (Hfail cols).
Qed.
End CacheAfterCall.

(** X5.  On a linked graph, for a type [N] that is not in the cache, the
    call of [_convertMessageType] leaves [N] in the cache exactly when it
    returns: a returned sequence is stored under [N], and a call that throws
    or does not end stores nothing under [N], so the failure is not
    memoised. *)
Theorem convertMessageType_caches_iff_returns
    {lib : Protobufjs} {contract : ProtobufjsContract lib}
    (typeMapping : gmap string GlueType) (fuel : nat) (N : string) (h : Heap) :
  Root_resolved (root h) ->
  _processedMessages h !! N = None ->
  (forall columns h',
     _convertMessageType typeMapping fuel N h = (Return columns, h') ->
     _processedMessages h' !! N = Some columns) /\
  ((forall columns, (_convertMessageType typeMapping fuel N h).1 <> Return columns) ->
   _processedMessages (_convertMessageType typeMapping fuel N h).2 !! N = None).
Proof.
  intros Hg Hnone. split.
  - intros cols h'. apply convertMessageType_Return_cached.
  - by apply convertMessageType_failed_uncached.
Qed.

Lemma convertMessageType_caches_iff_returns_witness :
  let h := constructor_heap Examples.counters in
  Root_resolved (root h) /\
  _processedMessages h !! ".Counters" = None /\
  _processedMessages
    (_convertMessageType (lib := Examples.protobufjs) DEFAULT_TYPE_MAPPING 2 ".Counters" h).2
    !! ".Counters" = None.
Proof.
  assert (Root_resolved Examples.counters) as Hg by by_computation.
  assert (forall columns,
            (_convertMessageType (lib := Examples.protobufjs) DEFAULT_TYPE_MAPPING 2
               ".Counters" (constructor_heap Examples.counters)).1 <> Return columns)
    as Hfail by (intros columns; vm_compute; discriminate).
  exact (conj Hg (conj eq_refl
           (proj2 (convertMessageType_caches_iff_returns (lib := Examples.protobufjs)
                     DEFAULT_TYPE_MAPPING 2 ".Counters"
                     (constructor_heap Examples.counters) Hg eq_refl) Hfail))).
Defined.

(** X6.  On a linked graph, a name that is in the cache after a call of
    [_convertMessageType] for [T] and was not before is [T] or the name of a
    type that [T] contains, directly or through nested messages: the call
    caches nothing else. *)
Theorem convertMessageType_caches_nested_only
    {lib : Protobufjs} {contract : ProtobufjsContract lib}
    (typeMapping : gmap string GlueType) (fuel : nat) (T : string) (h : Heap) (K : string) :
  Root_resolved (root h) ->
  _processedMessages h !! K = None ->
  is_Some (_processedMessages (_convertMessageType typeMapping fuel T h).2 !! K) ->
  rtc (contains (root h)) T K.
Proof. apply convertMessageType_adds. Qed.

Lemma convertMessageType_caches_nested_only_witness :
  let h := constructor_heap Examples.user in
  Root_resolved (root h) /\
  _processedMessages h !! ".Address" = None /\
  is_Some (_processedMessages
             (_convertMessageType (lib := Examples.protobufjs) DEFAULT_TYPE_MAPPING 3
                ".User" h).2 !! ".Address") /\
  rtc (contains (root h)) ".User" ".Address".
Proof.
  assert (Root_resolved Examples.user) as Hg by by_computation.
  assert (is_Some (_processedMessages
             (_convertMessageType (lib := Examples.protobufjs) DEFAULT_TYPE_MAPPING 3
                ".User" (constructor_heap Examples.user)).2 !! ".Address")) as Hsome.
  { rewrite run_convertMessageType_user. by eexists. }
  exact (conj Hg (conj eq_refl (conj Hsome
           (convertMessageType_caches_nested_only (lib := Examples.protobufjs)
              DEFAULT_TYPE_MAPPING 3 ".User" (constructor_heap Examples.user) ".Address"
              Hg eq_refl Hsome)))).
Defined.

(** ** The columns of a type that is not cached yet *)

Lemma Forall2_names (fs : list Field) (cs : list Column) :
  Forall2 (fun f c => name c = Field.name f) fs cs -> map name cs = map Field.name fs.
Proof. induction 1 as [|f c fs cs Hname _ IH]; [done|]. simpl. by rewrite Hname, IH. Qed.

Section FreshColumns.
Context {lib : Protobufjs} {contract : ProtobufjsContract lib}.
Variable typeMapping : gmap string GlueType.

Lemma mapM_convertField_names (rec : string -> M (list Column)) fs h columns h' :
  Forall (fun f => Field.resolved f = true) fs ->
  mapM (_convertField typeMapping rec) fs h = (Return columns, h') ->
  Forall2 (fun f c => name c = Field.name f) fs columns.
Proof.
  intros Hfs. revert h columns. induction Hfs as [|f fs Hf Hfs IH]; intros h cols.
  { rewrite run_mapM_nil. intros [= <- _]. constructor. }
  rewrite run_mapM_cons.
  destruct (_convertField typeMapping rec f h) as [[c|e|] h1] eqn:Hfield; [|done..].
  destruct (mapM (M:=M) _ fs h1) as [[cs|e|] h2] eqn:Hrest; [|done..].
  intros [= <- <-]. constructor; [by eapply convertField_name|by eapply IH].
Qed.

(** The structure built for a message-typed field is the sequence that the
    cache holds for the field's type once all fields are converted. *)
Lemma mapM_convertField_cached fuel fs h columns h' :
  Forall (fun f => Field.resolved f = true) fs ->
  mapM (_convertField typeMapping (_convertMessageType typeMapping fuel)) fs h
    = (Return columns, h') ->
  Forall2 (fun f c =>
             forall t, Field.resolvedType f = Some (IsType t) ->
               exists sub,
                 _processedMessages h' !! t = Some sub /\
                 type c = (if Field.repeated f
                           then glueSchema.array (glueSchema.struct sub)
                           else glueSchema.struct sub)) fs columns.
Proof.
  intros Hfs. revert h columns. induction Hfs as [|f fs Hf Hfs IH]; intros h cols.
  { rewrite run_mapM_nil. intros [= <- _]. constructor. }
  rewrite run_mapM_cons.
  destruct (_convertField typeMapping (_convertMessageType typeMapping fuel) f h)
    as [[c|e|] h1] eqn:Hfield; [|done..].
  pose proof (grows_mapM (_convertField typeMapping (_convertMessageType typeMapping fuel)) fs
                (fun f0 => grows_convertField typeMapping _ f0
                             (grows_convertMessageType typeMapping fuel)) h1) as Hgrow.
  destruct (mapM (M:=M) _ fs h1) as [[cs|e|] h2] eqn:Hrest; [|done..].
  intros [= <- <-]. constructor; [|by eapply IH].
  intros t Ht. rewrite run_convertField in Hfield by done.
  rewrite (run_convertNonRepeatedField_message _ _ f t h Hf Ht) in Hfield.
  destruct (_convertMessageType typeMapping fuel t h) as [[sub|e|] h0] eqn:Hrec;
    [|by destruct (Field.repeated f)..].
  apply convertMessageType_Return_cached in Hrec.
  exists sub. destruct (Field.repeated f); simplify_eq; simpl in *;
    (split; [by eapply lookup_weaken|done]).
Qed.
End FreshColumns.

(** X7.  On a linked graph, when [_convertMessageType] returns for a type
    [N] that was not cached, the column of every message-typed field of [N]
    is the structure (inside a list for a repeated field) of exactly the
    sequence that the cache then holds for the field's type.  So two fields
    of [N] of the same message type, both repeated or both not, get equal
    column types. *)
Theorem convertMessageType_structs_from_cache
    {lib : Protobufjs} {contract : ProtobufjsContract lib}
    (typeMapping : gmap string GlueType) (fuel : nat) (N : string) (h : Heap)
    (columns : list Column) (h' : Heap) :
  Root_resolved (root h) ->
  _processedMessages h !! N = None ->
  _convertMessageType typeMapping fuel N h = (Return columns, h') ->
  Forall2 (fun f c =>
             forall t, Field.resolvedType f = Some (IsType t) ->
               exists sub,
                 _processedMessages h' !! t = Some sub /\
                 type c = (if Field.repeated f
                           then glueSchema.array (glueSchema.struct sub)
                           else glueSchema.struct sub))
          (fields (root h) N) columns /\
  (forall i j f1 f2 c1 c2 t,
     fields (root h) N !! i = Some f1 -> columns !! i = Some c1 ->
     fields (root h) N !! j = Some f2 -> columns !! j = Some c2 ->
     Field.resolvedType f1 = Some (IsType t) ->
     Field.resolvedType f2 = Some (IsType t) ->
     Field.repeated f1 = Field.repeated f2 ->
     type c1 = type c2).
Proof.
  intros Hg Hmiss Hrun. destruct fuel as [|fuel]; [done|].
  rewrite run_convertMessageType_S in Hrun by done.
  destruct (_detectCircularReference fuel N N h) as [[[]|e|] h0] eqn:Hdetect; [|done..].
  destruct (mapM (M:=M) _ (fields (root h) N) h) as [[cols|e|] h2] eqn:Hmap; [|done..].
  injection Hrun as <- <-.
  pose proof (mapM_convertField_cached typeMapping fuel _ h cols h2
                (fields_Forall_resolved _ N Hg) Hmap) as Hcached.
  assert (Forall2 (fun f c =>
             forall t, Field.resolvedType f = Some (IsType t) ->
               exists sub,
                 <[N := cols]> (_processedMessages h2) !! t = Some sub /\
                 type c = (if Field.repeated f
                           then glueSchema.array (glueSchema.struct sub)
                           else glueSchema.struct sub))
            (fields (root h) N) cols) as Hfinal.
  { apply Forall2_same_length_lookup. split; [by eapply Forall2_length|].
    intros i f c Hf Hc t Ht.
    destruct (Forall2_lookup_lr _ _ _ i f c Hcached Hf Hc t Ht) as (sub & Hsub & Hty).
    exists sub. split; [|done].
    rewrite lookup_insert_ne; [done|]. intros <-.
    apply (detect_Return_no_path fuel N N h h0 Hg Hdetect).
    apply tc_once. apply Exists_exists. exists f. split; [|done].
    by eapply list_elem_of_lookup_2. }
  split; [done|].
  intros i j f1 f2 c1 c2 t Hf1 Hc1 Hf2 Hc2 Ht1 Ht2 Hrep.
  destruct (Forall2_lookup_lr _ _ _ i f1 c1 Hfinal Hf1 Hc1 t Ht1) as (sub1 & Hsub1 & ->).
  destruct (Forall2_lookup_lr _ _ _ j f2 c2 Hfinal Hf2 Hc2 t Ht2) as (sub2 & Hsub2 & ->).
  rewrite Hrep. by simplify_eq.
Qed.

Lemma convertMessageType_structs_from_cache_witness :
  let h := constructor_heap Examples.user in
  Root_resolved (root h) /\
  _processedMessages h !! ".User" = None /\
  _convertMessageType (lib := Examples.protobufjs) DEFAULT_TYPE_MAPPING 3 ".User" h =
    (Return user_columns, mkHeap Examples.user user_cache) /\
  Forall2 (fun f c =>
             forall t, Field.resolvedType f = Some (IsType t) ->
               exists sub,
                 user_cache !! t = Some sub /\
                 type c = (if Field.repeated f
                           then glueSchema.array (glueSchema.struct sub)
                           else glueSchema.struct sub))
          (fields Examples.user ".User") user_columns.
Proof.
  assert (Root_resolved Examples.user) as Hg by by_computation.
  exact (conj Hg (conj eq_refl (conj run_convertMessageType_user
           (proj1 (convertMessageType_structs_from_cache (lib := Examples.protobufjs)
                     DEFAULT_TYPE_MAPPING 3 ".User" (constructor_heap Examples.user)
                     user_columns (mkHeap Examples.user user_cache)
                     Hg eq_refl run_convertMessageType_user))))).
Defined.

(** X8.  On a linked graph, when [_convertMessageType] returns for a type
    [N] that was not cached, the returned sequence has one column per field
    of [N], in declaration order and under the fields' names, whatever the
    cache held for other types. *)
Theorem convertMessageType_fresh_names
    {lib : Protobufjs} {contract : ProtobufjsContract lib}
    (typeMapping : gmap string GlueType) (fuel : nat) (N : string) (h : Heap)
    (columns : list Column) (h' : Heap) :
  Root_resolved (root h) ->
  _processedMessages h !! N = None ->
  _convertMessageType typeMapping fuel N h = (Return columns, h') ->
  length columns = length (fields (root h) N) /\
  map name columns = map Field.name (fields (root h) N).
Proof.
  intros Hg Hmiss Hrun. destruct fuel as [|fuel]; [done|].
  rewrite run_convertMessageType_S in Hrun by done.
  destruct (_detectCircularReference fuel N N h) as [[[]|e|] h0]; [|done..].
  destruct (mapM (M:=M) _ (fields (root h) N) h) as [[cols|e|] h2] eqn:Hmap; [|done..].
  injection Hrun as <- <-.
  pose proof (mapM_convertField_names typeMapping _ _ h cols h2
                (fields_Forall_resolved _ N Hg) Hmap) as Hnames.
  split; [symmetry; by eapply Forall2_length|]. by apply Forall2_names.
Qed.

(** A cache that holds three columns for [.Address], left by another
    schema: [.User] of [example.proto] still gets its four columns under its
    own field names, the stale structure inside the last one. *)
Lemma convertMessageType_fresh_names_witness :
  let stale :=
    [mkColumn "zip" glueSchema.INTEGER; mkColumn "country" glueSchema.STRING;
     mkColumn "line" glueSchema.STRING] in
  let columns :=
    [mkColumn "name" glueSchema.STRING; mkColumn "age" glueSchema.INTEGER;
     mkColumn "hobbies" (glueSchema.array glueSchema.STRING);
     mkColumn "address" (glueSchema.struct stale)] in
  let h := mkHeap Examples.user (<[".Address" := stale]> ∅) in
  let h' := mkHeap Examples.user (<[".User" := columns]> (<[".Address" := stale]> ∅)) in
  Root_resolved (root h) /\
  _processedMessages h !! ".User" = None /\
  _convertMessageType (lib := Examples.protobufjs) DEFAULT_TYPE_MAPPING 3 ".User" h =
    (Return columns, h') /\
  map name columns = map Field.name (fields Examples.user ".User").
Proof.
  intros stale columns h h'.
  assert (Root_resolved Examples.user) as Hg by by_computation.
  assert (_convertMessageType (lib := Examples.protobufjs) DEFAULT_TYPE_MAPPING 3 ".User" h =
          (Return columns, h')) as Hrun by (vm_compute; reflexivity).
  exact (conj Hg (conj eq_refl (conj Hrun
           (proj2 (convertMessageType_fresh_names (lib := Examples.protobufjs)
                     DEFAULT_TYPE_MAPPING 3 ".User" h columns h' Hg eq_refl Hrun))))).
Defined.

(** ** Failures of the loader *)

(** X9.  An error raised while the schema file is loaded, or while the
    loaded root is resolved, is the error of [generateGlueSchema]: it is
    passed on as it is, nothing is converted and the cache is not touched.
    In both cases the two convenience functions fail with the same
    error. *)
Theorem loader_failure_propagates
    {lib : Protobufjs} (typeMapping : gmap string GlueType) (fuel : nat)
    (protoFile : string) (messageName : option string) (h : Heap) (e : Error) :
  (loadSync protoFile = Throw e ->
   generateGlueSchema typeMapping fuel protoFile messageName h = (Throw e, h)) /\
  (forall g0 g1,
     loadSync protoFile = Return g0 ->
     Root_resolveAll g0 = (Throw e, g1) ->
     generateGlueSchema typeMapping fuel protoFile messageName h =
       (Throw e, mkHeap g1 (_processedMessages h))) /\
  (loadSync protoFile = Throw e \/
   (exists g0 g1, loadSync protoFile = Return g0 /\ Root_resolveAll g0 = (Throw e, g1)) ->
   forall config inputString,
     convertProtoToGlueSchema fuel protoFile messageName config = Throw e /\
     convertProtoToJSONGlueSchema inputString fuel protoFile messageName config = Throw e).
Proof.
  assert (forall tm h0, loadSync protoFile = Throw e ->
            generateGlueSchema tm fuel protoFile messageName h0 = (Throw e, h0)) as Hload.
  { intros tm h0 Hfail. unfold generateGlueSchema, _loadProtoFile.
    by rewrite Hfail, run_bind, run_throw. }
  assert (forall tm h0 g0 g1,
            loadSync protoFile = Return g0 ->
            Root_resolveAll g0 = (Throw e, g1) ->
            generateGlueSchema tm fuel protoFile messageName h0 =
              (Throw e, mkHeap g1 (_processedMessages h0))) as Hlink.
  { intros tm h0 g0 g1 Hok Hresolve. unfold generateGlueSchema, _loadProtoFile.
    rewrite Hok, run_bind. unfold set_root. rewrite run_bind.
    unfold lift_root. simpl. by rewrite Hresolve. }
  split; [by apply Hload|]. split; [by apply Hlink|].
  intros Hfail config inputString.
  unfold convertProtoToJSONGlueSchema, convertProtoToGlueSchema.
  destruct Hfail as [Hfail | (g0 & g1 & Hok & Hresolve)].
  - by rewrite (Hload _ _ Hfail).
  - by rewrite (Hlink _ _ g0 g1 Hok Hresolve).
Qed.

(** A file that is not there: the converter that has converted [User] keeps
    its cache, and the convenience functions fail in the same way. *)
Lemma loader_failure_propagates_witness :
  let h := mkHeap Examples.user user_cache in
  loadSync (Protobufjs := Examples.protobufjs) "missing.proto" =
    Throw (SchemaLoadFailed "missing.proto") /\
  generateGlueSchema (lib := Examples.protobufjs) DEFAULT_TYPE_MAPPING 3 "missing.proto"
    (Some ".User") h = (Throw (SchemaLoadFailed "missing.proto"), h) /\
  convertProtoToGlueSchema (lib := Examples.protobufjs) 3 "missing.proto" (Some ".User") ∅ =
    Throw (SchemaLoadFailed "missing.proto") /\
  convertProtoToJSONGlueSchema (lib := Examples.protobufjs) readme_inputString 3
    "missing.proto" (Some ".User") ∅ = Throw (SchemaLoadFailed "missing.proto").
Proof.
  pose proof (loader_failure_propagates (lib := Examples.protobufjs)
                DEFAULT_TYPE_MAPPING 3 "missing.proto" (Some ".User")
                (mkHeap Examples.user user_cache)
                (SchemaLoadFailed "missing.proto")) as (Hgenerate & _ & Hconvenience).
  exact (conj eq_refl (conj (Hgenerate eq_refl)
           (Hconvenience (or_introl eq_refl) ∅ readme_inputString))).
Defined.

(** ** The convenience functions *)

(** The type that [generateGlueSchema] converts: the one named, or the first
    top-level message type. *)
Lemma convertProtoToGlueSchema_target
    {lib : Protobufjs} {contract : ProtobufjsContract lib}
    fuel protoFile messageName config g0 g columns :
  loadSync protoFile = Return g0 ->
  Root_resolveAll g0 = (Return tt, g) ->
  Root_resolved g ->
  convertProtoToGlueSchema fuel protoFile messageName config = Return columns ->
  exists N,
    match messageName with
    | Some n => n = N /\ is_Some (types g !! N)
    | None => find_Type (nestedArray g) = Some N
    end /\
    follows g N columns.
Proof.
  intros Hload Hresolve Hg. unfold convertProtoToGlueSchema.
  rewrite (run_generateGlueSchema _ _ _ _ _ g0 g) by done. simpl.
  assert (forall N,
            (_convertMessageType (constructor_typeMapping config) fuel N (mkHeap g ∅)).1
              = Return columns -> follows g N columns) as Hconv.
  { intros N Hrun.
    destruct (convertMessageType_follows (constructor_typeMapping config) g Hg fuel N
                (mkHeap g ∅) (conj eq_refl (cache_follows_empty g))) as [_ Hcols].
    destruct (_convertMessageType _ fuel N (mkHeap g ∅)) as [[cols|e|] h'] eqn:Hcall;
      [|done..].
    simpl in Hrun. injection Hrun as ->. by eapply Hcols. }
  destruct messageName as [n|].
  - destruct (types g !! n) as [fs|] eqn:Hn; [|done].
    intros Hrun. exists n. split; [by split|by apply Hconv].
  - destruct (find_Type (nestedArray g)) as [t|]; [|done].
    intros Hrun. exists t. split; [done|by apply Hconv].
Qed.

(** X10.  [convertProtoToGlueSchema] builds a converter of its own, so on a
    linked graph its result never comes from an earlier schema: when it
    returns, the columns are those of the selected type (the one named, or
    the first top-level message type), one per field, in declaration order
    and under the fields' names, and the sub-columns of message-typed fields
    follow the nested types in the same way. *)
Theorem convertProtoToGlueSchema_follows_fields
    {lib : Protobufjs} {contract : ProtobufjsContract lib}
    (fuel : nat) (protoFile : string) (messageName : option string)
    (config : gmap string GlueType) (g0 g : Root) (columns : list Column) :
  loadSync protoFile = Return g0 ->
  Root_resolveAll g0 = (Return tt, g) ->
  Root_resolved g ->
  convertProtoToGlueSchema fuel protoFile messageName config = Return columns ->
  exists N,
    match messageName with
    | Some n => n = N /\ is_Some (types g !! N)
    | None => find_Type (nestedArray g) = Some N
    end /\
    follows g N columns /\
    length columns = length (fields g N) /\
    map name columns = map Field.name (fields g N).
Proof.
  intros Hload Hresolve Hg Hrun.
  destruct (convertProtoToGlueSchema_target fuel protoFile messageName config g0 g columns
              Hload Hresolve Hg Hrun) as (N & Htarget & Hfollows).
  exists N. split; [done|]. split; [done|].
  split; [by apply follows_length|by apply follows_names].
Qed.

Lemma convertProtoToGlueSchema_follows_fields_witness :
  Root_resolved Examples.comprehensive /\
  convertProtoToGlueSchema (lib := Examples.protobufjs) 3 "test-comprehensive-mock.proto"
    None ∅ =
    Return [mkColumn "is_active" glueSchema.BOOLEAN; mkColumn "score" glueSchema.DOUBLE] /\
  exists N,
    find_Type (nestedArray Examples.comprehensive) = Some N /\
    follows Examples.comprehensive N
      [mkColumn "is_active" glueSchema.BOOLEAN; mkColumn "score" glueSchema.DOUBLE] /\
    length [mkColumn "is_active" glueSchema.BOOLEAN; mkColumn "score" glueSchema.DOUBLE] =
      length (fields Examples.comprehensive N) /\
    map name [mkColumn "is_active" glueSchema.BOOLEAN; mkColumn "score" glueSchema.DOUBLE] =
      map Field.name (fields Examples.comprehensive N).
Proof.
  assert (Root_resolved Examples.comprehensive) as Hg by by_computation.
  exact (conj Hg (conj eq_refl
           (convertProtoToGlueSchema_follows_fields (lib := Examples.protobufjs) 3
              "test-comprehensive-mock.proto" None ∅
              Examples.comprehensive Examples.comprehensive
              [mkColumn "is_active" glueSchema.BOOLEAN; mkColumn "score" glueSchema.DOUBLE]
              eq_refl eq_refl Hg eq_refl))).
Defined.

(** X11.  [convertProtoToJSONGlueSchema] throws exactly when
    [convertProtoToGlueSchema] throws, with the same error, whatever the
    file and the graph.  When [convertProtoToGlueSchema] returns columns,
    it returns entries, one per column and in the same order, and each
    entry has its column's name and the [inputString] of its column's type;
    it returns no entries otherwise.  On a linked graph the names of the
    entries are the names of the fields of the selected type, in
    declaration order. *)
Theorem convertProtoToJSONGlueSchema_entries
    {lib : Protobufjs} {contract : ProtobufjsContract lib}
    (inputString : GlueType -> string)
    (fuel : nat) (protoFile : string) (messageName : option string)
    (config : gmap string GlueType) :
  (forall e,
     convertProtoToJSONGlueSchema inputString fuel protoFile messageName config = Throw e <->
     convertProtoToGlueSchema fuel protoFile messageName config = Throw e) /\
  (forall columns,
     convertProtoToGlueSchema fuel protoFile messageName config = Return columns ->
     exists entries,
       convertProtoToJSONGlueSchema inputString fuel protoFile messageName config
         = Return entries /\
       Forall2 (fun c entry =>
                  IGlueJsonSchema.name entry = name c /\
                  IGlueJsonSchema.type entry = inputString (type c))
               columns entries) /\
  (forall entries,
     convertProtoToJSONGlueSchema inputString fuel protoFile messageName config
       = Return entries ->
     exists columns,
       convertProtoToGlueSchema fuel protoFile messageName config = Return columns /\
       Forall2 (fun c entry =>
                  IGlueJsonSchema.name entry = name c /\
                  IGlueJsonSchema.type entry = inputString (type c))
               columns entries) /\
  (forall g0 g entries,
     loadSync protoFile = Return g0 ->
     Root_resolveAll g0 = (Return tt, g) ->
     Root_resolved g ->
     convertProtoToJSONGlueSchema inputString fuel protoFile messageName config
       = Return entries ->
     exists N,
       match messageName with
       | Some n => n = N /\ is_Some (types g !! N)
       | None => find_Type (nestedArray g) = Some N
       end /\
       length entries = length (fields g N) /\
       map IGlueJsonSchema.name entries = map Field.name (fields g N)).
Proof.
  assert (forall columns : list Column,
            Forall2 (fun c entry =>
                       IGlueJsonSchema.name entry = name c /\
                       IGlueJsonSchema.type entry = inputString (type c))
                    columns
                    (map (fun c => IGlueJsonSchema.mk (name c) (inputString (type c)))
                       columns)) as Hentries.
  { induction columns as [|c columns IH]; constructor; [by split|done]. }
  unfold convertProtoToJSONGlueSchema.
  destruct (convertProtoToGlueSchema fuel protoFile messageName config) as [cols|e'|]
    eqn:Hrun.
  2,3: by repeat split; try (intros ?); try congruence; intros; congruence.
  split; [by split|]. split; [|split].
  - intros columns [= <-]. eexists. by split.
  - intros entries [= <-]. exists cols. by split.
  - intros g0 g entries Hload Hresolve Hg [= <-].
    destruct (convertProtoToGlueSchema_target fuel protoFile messageName config g0 g cols
                Hload Hresolve Hg Hrun) as (N & Htarget & Hfollows).
    exists N. split; [done|]. rewrite length_map, map_map. simpl.
    split; [by apply follows_length|by apply follows_names].
Qed.

Lemma convertProtoToJSONGlueSchema_entries_witness :
  Root_resolved Examples.user /\
  convertProtoToJSONGlueSchema (lib := Examples.protobufjs) readme_inputString 3
    "example.proto" (Some ".User") ∅ =
    Return [ IGlueJsonSchema.mk "name" "string";
             IGlueJsonSchema.mk "age" "int";
             IGlueJsonSchema.mk "hobbies" "array<string>";
             IGlueJsonSchema.mk "address" "struct<street:string,city:string>" ] /\
  exists N,
    (".User" = N /\ is_Some (types Examples.user !! N)) /\
    length [ IGlueJsonSchema.mk "name" "string";
             IGlueJsonSchema.mk "age" "int";
             IGlueJsonSchema.mk "hobbies" "array<string>";
             IGlueJsonSchema.mk "address" "struct<street:string,city:string>" ] =
      length (fields Examples.user N) /\
    map IGlueJsonSchema.name
      [ IGlueJsonSchema.mk "name" "string";
        IGlueJsonSchema.mk "age" "int";
        IGlueJsonSchema.mk "hobbies" "array<string>";
        IGlueJsonSchema.mk "address" "struct<street:string,city:string>" ] =
      map Field.name (fields Examples.user N).
Proof.
  assert (Root_resolved Examples.user) as Hg by by_computation.
  exact (conj Hg (conj eq_refl
           (proj2 (proj2 (proj2
              (convertProtoToJSONGlueSchema_entries (lib := Examples.protobufjs)
                 readme_inputString 3 "example.proto" (Some ".User") ∅)))
              Examples.user Examples.user _ eq_refl eq_refl Hg eq_refl))).
Defined.

(** ** Mapping entries that the schema does not use *)

Section UnusedTag.
Context {lib : Protobufjs} {contract : ProtobufjsContract lib}.
Variables typeMapping typeMapping' : gmap string GlueType.
Variable K : string.
Hypothesis agree : forall k, k <> K -> typeMapping !! k = typeMapping' !! k.

Lemma convertNonRepeatedField_unused_tag (rec rec' : string -> M (list Column)) f h :
  Field.resolved f = true ->
  match Field.resolvedType f with
  | None => Field.type f <> K
  | Some (IsEnum _) => K <> "enum"
  | Some (IsType _) => True
  end ->
  (forall t, rec t h = rec' t h) ->
  _convertNonRepeatedField typeMapping rec f h =
  _convertNonRepeatedField typeMapping' rec' f h.
Proof.
  intros Hf Hunused Hrec. destruct (Field.resolvedType f) as [[t|en]|] eqn:Hty.
  - rewrite !(run_convertNonRepeatedField_message _ _ f t h Hf Hty). by rewrite Hrec.
  - rewrite !(run_convertNonRepeatedField_enum _ _ f en h Hf Hty).
    unfold lookup_total, map_lookup_total. rewrite (agree "enum"); [done|congruence].
  - pose proof (agree _ Hunused) as Heq.
    rewrite !(run_convertNonRepeatedField_tag _ _ f h Hf Hty).
    assert (assertKey typeMapping (Field.type f) = assertKey typeMapping' (Field.type f))
      as ->.
    { unfold assertKey. apply bool_decide_ext. unfold has_property. by rewrite Heq. }
    unfold get_property. by rewrite Heq.
Qed.

Lemma mapM_convertField_unused_tag (rec rec' : string -> M (list Column)) fs h :
  (forall t h, Root_resolved (root h) -> root (rec t h).2 = root h) ->
  (forall t h0, root h0 = root h -> rec t h0 = rec' t h0) ->
  Root_resolved (root h) ->
  Forall (fun f => Field.resolved f = true) fs ->
  Forall (fun f =>
            match Field.resolvedType f with
            | None => Field.type f <> K
            | Some (IsEnum _) => K <> "enum"
            | Some (IsType _) => True
            end) fs ->
  mapM (_convertField typeMapping rec) fs h = mapM (_convertField typeMapping' rec') fs h.
Proof.
  intros Hroot Hrec Hg Hfs. revert h Hrec Hg.
  induction Hfs as [|f fs Hf Hfs IH]; intros h Hrec Hg Hunused.
  { by rewrite !run_mapM_nil. }
  apply Forall_cons in Hunused as [Hu Hus]. rewrite !run_mapM_cons.
  assert (_convertField typeMapping rec f h = _convertField typeMapping' rec' f h) as Hfield.
  { rewrite !(run_convertField _ _ f h Hf).
    rewrite (convertNonRepeatedField_unused_tag rec rec' f h Hf Hu); [done|].
    intros t. by apply Hrec. }
  pose proof (convertField_root typeMapping rec f h Hroot Hf Hg) as Hkeep.
  rewrite <- Hfield.
  destruct (_convertField typeMapping rec f h) as [[c|e|] h1]; [|done..].
  simpl in Hkeep. rewrite (IH h1); [done| |by rewrite Hkeep|done].
  intros t h0 Hh0. apply Hrec. by rewrite Hh0.
Qed.

Lemma convertMessageType_unused_tag fuel N h :
  Root_resolved (root h) ->
  tag_unused K (root h) ->
  _convertMessageType typeMapping fuel N h = _convertMessageType typeMapping' fuel N h.
Proof.
  revert N h. induction fuel as [|fuel IH]; intros N h Hg Hunused; [done|].
  destruct (_processedMessages h !! N) as [cols|] eqn:Hcache.
  { by rewrite !(run_convertMessageType_cached _ fuel N h cols Hcache). }
  rewrite !(run_convertMessageType_S _ fuel N h Hg Hcache).
  rewrite (mapM_convertField_unused_tag
             (_convertMessageType typeMapping fuel) (_convertMessageType typeMapping' fuel)
             (fields (root h) N) h); [done| | |done| |].
  - intros t h0 Hh0. by apply convertMessageType_root.
  - intros t h0 Hh0. apply IH; by rewrite Hh0.
  - by apply fields_Forall_resolved.
  - unfold fields. destruct (types (root h) !! N) as [fs|] eqn:HN; [|constructor].
    exact (Hunused N fs HN).
Qed.

End UnusedTag.

(** X12.  A mapping entry for a tag that the schema does not use has no
    effect: if no field of the linked graph has the scalar tag [K] (and, for
    [K] the tag [enum], no field is an enum), then giving [K] a Glue type in
    the configuration, or overriding its default, leaves the outcome of
    [convertProtoToGlueSchema] as it is, whether that is columns or an
    error. *)
Theorem convertProtoToGlueSchema_unused_tag
    {lib : Protobufjs} {contract : ProtobufjsContract lib}
    (fuel : nat) (protoFile : string) (messageName : option string)
    (config : gmap string GlueType) (K : string) (ty : GlueType) (g0 g : Root) :
  loadSync protoFile = Return g0 ->
  Root_resolveAll g0 = (Return tt, g) ->
  Root_resolved g ->
  tag_unused K g ->
  convertProtoToGlueSchema fuel protoFile messageName (<[K := ty]> config) =
  convertProtoToGlueSchema fuel protoFile messageName config.
Proof.
  intros Hload Hresolve Hg Hunused. unfold convertProtoToGlueSchema.
  rewrite !(run_generateGlueSchema _ fuel protoFile messageName _ g0 g Hload Hresolve).
  simpl.
  assert (forall N,
            _convertMessageType (constructor_typeMapping (<[K := ty]> config)) fuel N
              (mkHeap g ∅) =
            _convertMessageType (constructor_typeMapping config) fuel N (mkHeap g ∅))
    as Hsame.
  { intros N. apply (convertMessageType_unused_tag _ _ K); [|done..].
    intros k Hk. unfold constructor_typeMapping.
    rewrite !lookup_union, lookup_insert_ne; done. }
  destruct messageName as [n|].
  - destruct (types g !! n); [by rewrite Hsame|done].
  - destruct (find_Type (nestedArray g)); [by rewrite Hsame|done].
Qed.

Lemma convertProtoToGlueSchema_unused_tag_witness :
  Root_resolved Examples.user /\
  tag_unused "float" Examples.user /\
  convertProtoToGlueSchema (lib := Examples.protobufjs) 3 "example.proto" (Some ".User")
    (<["float" := glueSchema.DOUBLE]> ∅) =
  convertProtoToGlueSchema (lib := Examples.protobufjs) 3 "example.proto" (Some ".User") ∅.
Proof.
  assert (Root_resolved Examples.user) as Hg by by_computation.
  assert (tag_unused "float" Examples.user) as Hunused by by_computation.
  exact (conj Hg (conj Hunused
           (convertProtoToGlueSchema_unused_tag (lib := Examples.protobufjs) 3
              "example.proto" (Some ".User") ∅ "float" glueSchema.DOUBLE
              Examples.user Examples.user eq_refl eq_refl Hg Hunused))).
Defined.

(** ** Which types a converter returns columns for *)

Section ReturnedTypes.
Context {lib : Protobufjs} {contract : ProtobufjsContract lib}.
Variable typeMapping : gmap string GlueType.

Lemma convertible_mono g d d' N :
  convertible typeMapping g d N = true -> d <= d' ->
  convertible typeMapping g d' N = true.
Proof.
  revert d' N. induction d as [|d IH]; intros d' N Hconv Hle; [done|].
  destruct d' as [|d']; [lia|]. simpl in *. rewrite forallb_forall in *.
  intros f Hf. specialize (Hconv f Hf).
  destruct (Field.resolvedType f) as [[t|en]|]; [|done..].
  apply IH; [done|lia].
Qed.

(** A bound on the nesting depth that serves every field of a list. *)
Lemma convertible_fields g fs :
  Forall (fun f =>
            match Field.resolvedType f with
            | Some (IsType t) => exists d, convertible typeMapping g d t = true
            | Some (IsEnum _) => True
            | None => assertKey typeMapping (Field.type f) = true
            end) fs ->
  exists d,
    forallb (fun f =>
               match Field.resolvedType f with
               | Some (IsType t) => convertible typeMapping g d t
               | Some (IsEnum _) => true
               | None => assertKey typeMapping (Field.type f)
               end) fs = true.
Proof.
  induction 1 as [|f fs Hf _ [d IH]]; [by exists 0|].
  rewrite forallb_forall in IH.
  destruct (Field.resolvedType f) as [[t|en]|] eqn:Hty.
  - destruct Hf as [d0 Hd0]. exists (d0 `max` d). simpl. rewrite Hty.
    rewrite (convertible_mono g d0 _ t Hd0) by lia. simpl.
    apply forallb_forall. intros f' Hf'. specialize (IH f' Hf').
    destruct (Field.resolvedType f') as [[t'|en']|]; [|done..].
    apply (convertible_mono g d); [done|lia].
  - exists d. simpl. rewrite Hty. simpl. by apply forallb_forall.
  - exists d. simpl. rewrite Hty, Hf. simpl. by apply forallb_forall.
Qed.

Lemma convertNonRepeatedField_Return_convertible
    (rec : string -> M (list Column)) f h c h' :
  Field.resolved f = true ->
  _convertNonRepeatedField typeMapping rec f h = (Return c, h') ->
  match Field.resolvedType f with
  | Some (IsType t) => exists columns, rec t h = (Return columns, h')
  | Some (IsEnum _) => h' = h
  | None => assertKey typeMapping (Field.type f) = true /\ h' = h
  end.
Proof.
  intros Hf. destruct (Field.resolvedType f) as [[t|en]|] eqn:Hty.
  - rewrite (run_convertNonRepeatedField_message _ _ f t h Hf Hty).
    destruct (rec t h) as [[cols|e|] h1]; [|done..]. intros [= _ <-]. by exists cols.
  - rewrite (run_convertNonRepeatedField_enum _ _ f en h Hf Hty). by intros [= _ <-].
  - rewrite (run_convertNonRepeatedField_tag _ _ f h Hf Hty).
    destruct (assertKey typeMapping (Field.type f)); [|done]. by intros [= _ <-].
Qed.

(** The columns in the cache are kept to types that are convertible, if they
    were so before. *)
Lemma convertMessageType_Return_convertible fuel N h columns h' :
  Root_resolved (root h) ->
  (forall t c, _processedMessages h !! t = Some c ->
     exists d, convertible typeMapping (root h) d t = true) ->
  _convertMessageType typeMapping fuel N h = (Return columns, h') ->
  (exists d, convertible typeMapping (root h) d N = true) /\
  (forall t c, _processedMessages h' !! t = Some c ->
     exists d, convertible typeMapping (root h) d t = true).
Proof.
  revert N h columns h'.
  induction fuel as [|fuel IH]; intros N h columns h' Hg Hcache; [done|].
  destruct (_processedMessages h !! N) as [cached|] eqn:Hhit.
  { rewrite (run_convertMessageType_cached _ fuel N h cached Hhit). intros [= _ <-].
    split; [by eapply Hcache|done]. }
  rewrite (run_convertMessageType_S _ fuel N h Hg Hhit).
  destruct (_detectCircularReference fuel N N h) as [[[]|e|] hd]; [|done..].
  assert (forall fs h0 cols h1,
            root h0 = root h ->
            Forall (fun f => Field.resolved f = true) fs ->
            (forall t c, _processedMessages h0 !! t = Some c ->
               exists d, convertible typeMapping (root h) d t = true) ->
            mapM (_convertField typeMapping (_convertMessageType typeMapping fuel)) fs h0
              = (Return cols, h1) ->
            root h1 = root h /\
            (forall t c, _processedMessages h1 !! t = Some c ->
               exists d, convertible typeMapping (root h) d t = true) /\
            Forall (fun f =>
                      match Field.resolvedType f with
                      | Some (IsType t) =>
                          exists d, convertible typeMapping (root h) d t = true
                      | Some (IsEnum _) => True
                      | None => assertKey typeMapping (Field.type f) = true
                      end) fs) as Hmap.
  { intros fs h0 cols h1 Hroot Hfs. revert h0 cols Hroot.
    induction Hfs as [|f fs Hf Hfs IHfs]; intros h0 cols Hroot Hcache0.
    { rewrite run_mapM_nil. intros [= _ <-]. by repeat split. }
    rewrite run_mapM_cons, (run_convertField _ _ f h0 Hf).
    assert (Root_resolved (root h0)) as Hg0 by (by rewrite Hroot).
    destruct (_convertNonRepeatedField typeMapping (_convertMessageType typeMapping fuel)
                f h0) as [[c|e|] h2] eqn:Hfield.
    2,3: by destruct (Field.repeated f).
    apply (convertNonRepeatedField_Return_convertible _ f h0 c h2 Hf) in Hfield.
    assert (root h2 = root h /\
            (forall t c, _processedMessages h2 !! t = Some c ->
               exists d, convertible typeMapping (root h) d t = true) /\
            match Field.resolvedType f with
            | Some (IsType t) => exists d, convertible typeMapping (root h) d t = true
            | Some (IsEnum _) => True
            | None => assertKey typeMapping (Field.type f) = true
            end) as (Hroot2 & Hcache2 & Hthis).
    { destruct (Field.resolvedType f) as [[t|en]|].
      - destruct Hfield as [sub Hrec].
        pose proof (convertMessageType_root typeMapping fuel t h0 Hg0) as Hkeep.
        rewrite Hrec in Hkeep. simpl in Hkeep.
        destruct (IH t h0 sub h2 Hg0) as [Ht Hcache2]; [by rewrite Hroot|done|].
        rewrite Hroot in Ht, Hcache2. split; [congruence|by split].
      - by subst h2.
      - destruct Hfield as [Hkey ->]. by repeat split. }
    assert (forall r, (if Field.repeated f
             then match (Return c, h2) with
                  | (Return column, h'0) =>
                      (Return (mkColumn (Field.name f) (glueSchema.array (type column))), h'0)
                  | (Throw e, h'0) => (Throw e, h'0)
                  | (OutOfFuel, h'0) => (OutOfFuel, h'0)
                  end
             else (Return c, h2)) = r -> exists c', r = (Return c', h2)) as Hshape.
    { intros r <-. destruct (Field.repeated f); by eexists. }
    destruct (Hshape _ eq_refl) as [c' ->].
    destruct (mapM (M:=M) _ fs h2) as [[cs|e|] h3] eqn:Hrest; [|done..].
    intros [= _ <-].
    destruct (IHfs h2 cs Hroot2 Hcache2 Hrest) as (Hroot3 & Hcache3 & Hothers).
    split; [done|]. split; [done|]. by constructor. }
  destruct (mapM (M:=M) _ (fields (root h) N) h) as [[cols|e|] h1] eqn:Hfields; [|done..].
  intros [= _ <-]. simpl.
  destruct (Hmap _ h cols h1 eq_refl (fields_Forall_resolved _ N Hg) Hcache Hfields)
    as (Hroot1 & Hcache1 & Hall).
  destruct (convertible_fields _ _ Hall) as [d Hd].
  assert (convertible typeMapping (root h) (S d) N = true) as HN by done.
  split; [by exists (S d)|].
  intros t c. destruct (decide (t = N)) as [->|Hne].
  - intros _. by exists (S d).
  - rewrite lookup_insert_ne by done. apply Hcache1.
Qed.

End ReturnedTypes.

(** X13.  A fresh converter on a linked graph returns columns for [N]
    exactly when the nesting below [N] is finite and every scalar field of
    [N] and of the types nested in it has a tag that the guard [assertKey]
    lets through: an entry of the mapping, or a name that the mapping
    inherits from [Object.prototype].  So when it returns, no type reached
    from [N] lies on a containment cycle. *)
Theorem convertMessageType_returns_iff_convertible
    {lib : Protobufjs} {contract : ProtobufjsContract lib}
    (typeMapping : gmap string GlueType) (g : Root) (N : string) :
  Root_resolved g ->
  ((exists fuel columns h',
      _convertMessageType typeMapping fuel N (constructor_heap g) = (Return columns, h')) <->
   (exists d, convertible typeMapping g d N = true)) /\
  ((exists fuel columns h',
      _convertMessageType typeMapping fuel N (constructor_heap g) = (Return columns, h')) ->
   forall t, rtc (contains g) N t -> ~ tc (contains g) t t).
Proof.
  intros Hg.
  assert ((exists fuel columns h',
             _convertMessageType typeMapping fuel N (constructor_heap g)
               = (Return columns, h')) ->
          exists d, convertible typeMapping g d N = true) as Honly.
  { intros (fuel & columns & h' & Hrun).
    by destruct (convertMessageType_Return_convertible typeMapping fuel N
                   (constructor_heap g) columns h' Hg (fun t c H => ltac:(done)) Hrun). }
  split; [split; [done|]|].
  - intros [d Hd]. exists (S d).
    apply (convertMessageType_returns typeMapping d (S d) N (constructor_heap g) Hg Hd).
    lia.
  - intros Hrun t Hreach Hloop. destruct (Honly Hrun) as [d Hd].
    apply convertible_nesting_ends in Hd.
    destruct (nesting_ends_reach _ _ _ _ Hd Hreach) as (d' & _ & Hends).
    by destruct (nesting_ends_acyclic _ _ _ Hends).
Qed.

Lemma convertMessageType_returns_iff_convertible_witness :
  Root_resolved Examples.user /\
  (exists d, convertible DEFAULT_TYPE_MAPPING Examples.user d ".User" = true) /\
  exists fuel columns h',
    _convertMessageType (lib := Examples.protobufjs) DEFAULT_TYPE_MAPPING fuel ".User"
      (constructor_heap Examples.user) = (Return columns, h').
Proof.
  assert (Root_resolved Examples.user) as Hg by by_computation.
  assert (exists d, convertible DEFAULT_TYPE_MAPPING Examples.user d ".User" = true)
    as Hconv by (exists 2; vm_compute; reflexivity).
  exact (conj Hg (conj Hconv
           (proj2 (proj1 (convertMessageType_returns_iff_convertible
                            (lib := Examples.protobufjs)
                            DEFAULT_TYPE_MAPPING Examples.user ".User" Hg)) Hconv))).
Defined.
